(** * Drawing_Application_React: the shape model and the handlers of App.tsx

    Numbers of the program (JavaScript numbers) are modelled as real
    numbers; a field that a shape object may lack (the variant fields of
    [Rectangle], [Circle] and [Line]) is an [option].  The React state of
    [App] is an explicit state record and every handler is a function from
    state to state. *)

From Stdlib Require Import List String Reals Lra Lia Bool.
Import ListNotations.
Open Scope R_scope.

(** ** Numbers *)

(** A JavaScript comparison [a < b] as a boolean. *)
Definition Rltb (a b : R) : bool := if Rlt_dec a b then true else false.

(** A number field that may be missing ([undefined]).  Arithmetic on a
    missing value gives a non-number, which is not distinguished from a
    missing value; any comparison with it is [false], as in JavaScript. *)
Definition num := option R.

Definition nlt (a : num) (b : R) : bool :=
  match a with Some v => Rltb v b | None => false end.

Definition nabs (a : num) : num := option_map Rabs a.

Definition nsub (a : num) (b : R) : num := option_map (fun v => v - b) a.

Definition nadd (a : num) (b : R) : num := option_map (fun v => v + b) a.

(** [Math.hypot(a, b)]. *)
Definition nhypot (a b : num) : num :=
  match a, b with
  | Some u, Some v => Some (sqrt (u * u + v * v))
  | _, _ => None
  end.

(** ** The shape model (src/src/App.tsx, lines 5-32) *)

Inductive ShapeType := rectangle | circle | line.

Inductive StrokeStyle := solid | dashed.

Definition ShapeType_eqb (a b : ShapeType) : bool :=
  match a, b with
  | rectangle, rectangle | circle, circle | line, line => true
  | _, _ => false
  end.

Module Shape.

(** A shape object: the fields of [BaseShape], and the variant fields,
    each present or absent ([None]). *)
Record t := mk {
  id : string;
  type : ShapeType;
  x : R;
  y : R;
  stroke : string;
  strokeWidth : R;
  strokeStyle : StrokeStyle;
  width : num;
  height : num;
  radius : num;
  fill : option string;
  x2 : num;
  y2 : num
}.

(** [Partial<Shape>]: every key may be present ([Some]) or not. *)
Record attrs := mkAttrs {
  a_id : option string;
  a_type : option ShapeType;
  a_x : option R;
  a_y : option R;
  a_stroke : option string;
  a_strokeWidth : option R;
  a_strokeStyle : option StrokeStyle;
  a_width : option num;
  a_height : option num;
  a_radius : option num;
  a_fill : option (option string);
  a_x2 : option num;
  a_y2 : option num
}.

Definition no_attrs : attrs :=
  mkAttrs None None None None None None None None None None None None None.

Definition ov {A} (o : option A) (d : A) : A :=
  match o with Some v => v | None => d end.

(** The object spread [{ ...s, ...a }]. *)
Definition merge (s : t) (a : attrs) : t :=
  mk (ov (a_id a) (id s)) (ov (a_type a) (type s))
     (ov (a_x a) (x s)) (ov (a_y a) (y s))
     (ov (a_stroke a) (stroke s)) (ov (a_strokeWidth a) (strokeWidth s))
     (ov (a_strokeStyle a) (strokeStyle s))
     (ov (a_width a) (width s)) (ov (a_height a) (height s))
     (ov (a_radius a) (radius s)) (ov (a_fill a) (fill s))
     (ov (a_x2 a) (x2 s)) (ov (a_y2 a) (y2 s)).

End Shape.

(** [updateShape] (lines 70-72): [prev.map(s => s.id === id ? {...s, ...attrs} : s)]. *)
Definition updateShape (i : string) (a : Shape.attrs) (prev : list Shape.t)
  : list Shape.t :=
  map (fun s => if String.eqb (Shape.id s) i then Shape.merge s a else s) prev.

(** ** The state of [App] (lines 35-49) *)

Record State := mkState {
  shapes : list Shape.t;
  tool : ShapeType;
  selectedId : option string;
  strokeColor : string;
  fillColor : option string;
  strokeWidth : R;
  strokeStyle : StrokeStyle;
  isDrawing : bool;
  newShape : option Shape.t
}.

Definition set_shapes (st : State) (l : list Shape.t) : State :=
  mkState l (tool st) (selectedId st) (strokeColor st) (fillColor st)
    (strokeWidth st) (strokeStyle st) (isDrawing st) (newShape st).

Definition set_draft (st : State) (drawing : bool) (d : option Shape.t) : State :=
  mkState (shapes st) (tool st) (selectedId st) (strokeColor st) (fillColor st)
    (strokeWidth st) (strokeStyle st) drawing d.

(** A selected id is truthy when present and not the empty string. *)
Definition truthy_id (o : option string) : bool :=
  match o with Some s => negb (String.eqb s "") | None => false end.

(** ** [handleMouseDown] (lines 74-126).  [onStage] is
    [e.target === e.target.getStage()], [point] the pointer position and
    [uuid] the value of [uuidv4()]. *)
Definition handleMouseDown (st : State) (onStage : bool) (point : option (R * R))
    (uuid : string) : State :=
  if negb onStage then st else
  match point with
  | None => st
  | Some (px, py) =>
      let shape :=
        match tool st with
        | rectangle =>
            Shape.mk uuid rectangle px py (strokeColor st) (strokeWidth st)
              (strokeStyle st) (Some 0) (Some 0) None (fillColor st) None None
        | circle =>
            Shape.mk uuid circle px py (strokeColor st) (strokeWidth st)
              (strokeStyle st) None None (Some 0) (fillColor st) None None
        | line =>
            Shape.mk uuid line px py (strokeColor st) (strokeWidth st)
              (strokeStyle st) None None None None (Some px) (Some py)
        end in
      mkState (shapes st) (tool st) None (strokeColor st) (fillColor st)
        (strokeWidth st) (strokeStyle st) true (Some shape)
  end.

(** ** [handleMouseMove] (lines 128-150) *)
Definition move_draft (d : Shape.t) (px py : R) : Shape.t :=
  match Shape.type d with
  | rectangle =>
      Shape.merge d (Shape.mkAttrs None None None None None None None
        (Some (Some (px - Shape.x d))) (Some (Some (py - Shape.y d)))
        None None None None)
  | circle =>
      let dx := px - Shape.x d in
      let dy := py - Shape.y d in
      Shape.merge d (Shape.mkAttrs None None None None None None None
        None None (Some (Some (sqrt (dx * dx + dy * dy)))) None None None)
  | line =>
      Shape.merge d (Shape.mkAttrs None None None None None None None
        None None None None (Some (Some px)) (Some (Some py)))
  end.

Definition handleMouseMove (st : State) (point : option (R * R)) : State :=
  if negb (isDrawing st) then st else
  match newShape st with
  | None => st
  | Some d =>
      match point with
      | None => st
      | Some (px, py) => set_draft st (isDrawing st) (Some (move_draft d px py))
      end
  end.

(** ** [handleMouseUp] (lines 152-182) *)
Definition too_small (d : Shape.t) : bool :=
  (ShapeType_eqb (Shape.type d) rectangle
     && (nlt (nabs (Shape.width d)) 5 || nlt (nabs (Shape.height d)) 5))
  || (ShapeType_eqb (Shape.type d) circle && nlt (Shape.radius d) 5)
  || (ShapeType_eqb (Shape.type d) line
        && nlt (nhypot (nsub (Shape.x2 d) (Shape.x d))
                       (nsub (Shape.y2 d) (Shape.y d))) 5).

(** [if (width < 0) { x += width; width = Math.abs(width); }], one axis. *)
Definition normalize_axis (p : R) (w : num) : R * num :=
  match w with
  | Some v => if Rltb v 0 then (p + v, Some (Rabs v)) else (p, Some v)
  | None => (p, None)
  end.

Definition commit_shape (d : Shape.t) : Shape.t :=
  match Shape.type d with
  | rectangle =>
      let (x, width) := normalize_axis (Shape.x d) (Shape.width d) in
      let (y, height) := normalize_axis (Shape.y d) (Shape.height d) in
      Shape.merge d (Shape.mkAttrs None None (Some x) (Some y) None None None
        (Some width) (Some height) None None None None)
  | _ => d
  end.

Definition handleMouseUp (st : State) : State :=
  if negb (isDrawing st) then st else
  match newShape st with
  | None => st
  | Some d =>
      if too_small d then set_draft st false None
      else set_draft (set_shapes st (shapes st ++ [commit_shape d])) false None
  end.

(** ** [applyStyleToSelected] (lines 200-212) *)
Definition applyStyleToSelected (st : State) : State :=
  match selectedId st with
  | None => st
  | Some sel =>
      if negb (truthy_id (Some sel)) then st else
      let fillUpd :=
        match find (fun s => String.eqb (Shape.id s) sel) (shapes st) with
        | Some s => if ShapeType_eqb (Shape.type s) line then None
                    else Some (fillColor st)
        | None => None
        end in
      let updates := Shape.mkAttrs None None None None
        (Some (strokeColor st)) (Some (strokeWidth st)) (Some (strokeStyle st))
        None None None fillUpd None None in
      set_shapes st (updateShape sel updates (shapes st))
  end.

(** ** [onClick] of the [n]-th rendered shape (lines 280-288) *)
Definition selectShape (st : State) (n : nat) : State :=
  match nth_error (shapes st) n with
  | None => st
  | Some s =>
      mkState (shapes st) (tool st) (Some (Shape.id s)) (Shape.stroke s)
        (if ShapeType_eqb (Shape.type s) line then fillColor st else Shape.fill s)
        (Shape.strokeWidth s) (Shape.strokeStyle s) (isDrawing st) (newShape st)
  end.

(** The pending-style record: stroke color, fill color, stroke width and
    stroke style of the side panel. *)
Definition pendingStyle (st : State) : string * option string * R * StrokeStyle :=
  (strokeColor st, fillColor st, strokeWidth st, strokeStyle st).

(** ** [onDragEnd] of the [n]-th rendered shape (lines 289-304); [pos] is
    the dragged node's position. *)
Definition drag_attrs (s : Shape.t) (pos : R * R) : Shape.attrs :=
  let (px, py) := pos in
  if ShapeType_eqb (Shape.type s) line then
    Shape.mkAttrs None None (Some (Shape.x s + px)) (Some (Shape.y s + py))
      None None None None None None None
      (Some (nadd (Shape.x2 s) px)) (Some (nadd (Shape.y2 s) py))
  else
    Shape.mkAttrs None None (Some px) (Some py)
      None None None None None None None None None.

Definition onDragEnd (st : State) (n : nat) (pos : R * R) : State :=
  match nth_error (shapes st) n with
  | None => st
  | Some s => set_shapes st (updateShape (Shape.id s) (drag_attrs s pos) (shapes st))
  end.

(** ** JSON values and JSON text

    A JavaScript value that [JSON.stringify] and [JSON.parse] handle.  A
    string is modelled as the sequence of its lexical pieces: JSON tokens,
    runs of whitespace ([Ws]) and characters that begin no JSON token
    ([Junk]); the empty string is the empty sequence, and only it.  A
    number token carries the number it denotes and a string token the
    string it denotes (ECMAScript prints a finite number so that reading it
    back yields the same number, and escapes strings so that they read
    back). *)
#[warnings="-register-all"]
Inductive jsval :=
| JNull
| JNum (n : R)
| JStr (s : string)
| JArr (vs : list jsval)
| JObj (ms : list (string * jsval)).

Inductive tok :=
| LBrack | RBrack | LBrace | RBrace | Comma | Colon
| TNull | TNum (n : R) | TStr (s : string)
| Ws | Junk.

Definition text := list tok.

Definition sep {A} (l : list A) : list tok :=
  match l with [] => [] | _ :: _ => [Comma] end.

(** [JSON.stringify]. *)
Fixpoint stringify (v : jsval) : text :=
  match v with
  | JNull => [TNull]
  | JNum n => [TNum n]
  | JStr s => [TStr s]
  | JArr vs =>
      LBrack ::
      (fix go (vs : list jsval) : text :=
         match vs with
         | [] => [RBrack]
         | w :: ws => stringify w ++ sep ws ++ go ws
         end) vs
  | JObj ms =>
      LBrace ::
      (fix go (ms : list (string * jsval)) : text :=
         match ms with
         | [] => [RBrace]
         | (k, w) :: ms' => TStr k :: Colon :: stringify w ++ sep ms' ++ go ms'
         end) ms
  end.

Definition head_is (t : tok) (ts : text) : bool :=
  match t, ts with
  | RBrack, RBrack :: _ | RBrace, RBrace :: _ => true
  | _, _ => false
  end.

(** The recursive-descent reader of [JSON.parse]; [fuel] bounds the depth
    of the descent and the number of elements. *)
Fixpoint parse_value (fuel : nat) (ts : text) : option (jsval * text) :=
  match fuel with
  | O => None
  | S f =>
      match ts with
      | TNull :: r => Some (JNull, r)
      | TNum n :: r => Some (JNum n, r)
      | TStr s :: r => Some (JStr s, r)
      | LBrack :: r =>
          if head_is RBrack r then Some (JArr [], tl r) else
          match parse_elems f r with
          | Some (vs, r') => Some (JArr vs, r')
          | None => None
          end
      | LBrace :: r =>
          if head_is RBrace r then Some (JObj [], tl r) else
          match parse_members f r with
          | Some (ms, r') => Some (JObj ms, r')
          | None => None
          end
      | _ => None
      end
  end
with parse_elems (fuel : nat) (ts : text) : option (list jsval * text) :=
  match fuel with
  | O => None
  | S f =>
      match parse_value f ts with
      | Some (v, RBrack :: r) => Some ([v], r)
      | Some (v, Comma :: r) =>
          match parse_elems f r with
          | Some (vs, r') => Some (v :: vs, r')
          | None => None
          end
      | _ => None
      end
  end
with parse_members (fuel : nat) (ts : text) : option (list (string * jsval) * text) :=
  match fuel with
  | O => None
  | S f =>
      match ts with
      | TStr k :: Colon :: r =>
          match parse_value f r with
          | Some (v, RBrace :: r') => Some ([(k, v)], r')
          | Some (v, Comma :: r') =>
              match parse_members f r' with
              | Some (ms, r'') => Some ((k, v) :: ms, r'')
              | None => None
              end
          | _ => None
          end
      | _ => None
      end
  end.

Definition is_ws (t : tok) : bool :=
  match t with Ws => true | _ => false end.

(** Whitespace may surround any token and is otherwise ignored. *)
Definition strip_ws (t : text) : text := filter (fun x => negb (is_ws x)) t.

(** [JSON.parse]: a whole text is one value; [None] is a thrown
    [SyntaxError]. *)
Definition json_parse (t : text) : option jsval :=
  let t' := strip_ws t in
  match parse_value (S (List.length t')) t' with
  | Some (v, []) => Some v
  | _ => None
  end.

(** ** Shapes as JavaScript objects *)

Definition ShapeType_name (k : ShapeType) : string :=
  match k with
  | rectangle => "rectangle" | circle => "circle" | line => "line"
  end.

Definition StrokeStyle_name (k : StrokeStyle) : string :=
  match k with solid => "solid" | dashed => "dashed" end.

Definition opt_field {A} (k : string) (f : A -> jsval) (o : option A)
  : list (string * jsval) :=
  match o with Some v => [(k, f v)] | None => [] end.

Definition shape_to_js (s : Shape.t) : jsval :=
  JObj ([("id", JStr (Shape.id s)); ("type", JStr (ShapeType_name (Shape.type s)));
         ("x", JNum (Shape.x s)); ("y", JNum (Shape.y s));
         ("stroke", JStr (Shape.stroke s));
         ("strokeWidth", JNum (Shape.strokeWidth s));
         ("strokeStyle", JStr (StrokeStyle_name (Shape.strokeStyle s)))]%string
        ++ opt_field "width" JNum (Shape.width s)
        ++ opt_field "height" JNum (Shape.height s)
        ++ opt_field "radius" JNum (Shape.radius s)
        ++ opt_field "fill" JStr (Shape.fill s)
        ++ opt_field "x2" JNum (Shape.x2 s)
        ++ opt_field "y2" JNum (Shape.y2 s)).

(** ** [localStorage] and the persistence of [App] *)

Definition Store := string -> option text.

Definition setItem (ls : Store) (k : string) (v : text) : Store :=
  fun k' => if String.eqb k' k then Some v else ls k'.

Inductive JsError := SyntaxError.

Inductive Result (A : Type) := Ok (v : A) | Throw (e : JsError).
Arguments Ok {A}.
Arguments Throw {A}.

(** [saveDrawing] (lines 184-187). *)
Definition saveDrawing (st : State) (ls : Store) : Store :=
  setItem ls "drawing"%string (stringify (JArr (map shape_to_js (shapes st)))).

(** The initial value of [shapes] (lines 35-38):
    [saved ? JSON.parse(saved) : []]; the empty sequence is the falsy [""],
    and every other string, whitespace only included, is truthy. *)
Definition loadDrawing (ls : Store) : Result jsval :=
  match ls "drawing"%string with
  | None => Ok (JArr [])
  | Some [] => Ok (JArr [])
  | Some txt =>
      match json_parse txt with
      | Some v => Ok v
      | None => Throw SyntaxError
      end
  end.

(** * Properties *)

(** ** The JSON reader inverts the JSON writer *)

Fixpoint elems_toks (vs : list jsval) : text :=
  match vs with
  | [] => [RBrack]
  | w :: ws => stringify w ++ sep ws ++ elems_toks ws
  end.

Fixpoint members_toks (ms : list (string * jsval)) : text :=
  match ms with
  | [] => [RBrace]
  | (k, w) :: ms' => TStr k :: Colon :: stringify w ++ sep ms' ++ members_toks ms'
  end.

Lemma stringify_arr vs : stringify (JArr vs) = LBrack :: elems_toks vs.
Proof.
  reflexivity.
Qed.

Lemma stringify_obj ms : stringify (JObj ms) = LBrace :: members_toks ms.
Proof.
  reflexivity.
Qed.

Lemma stringify_length v : (1 <= List.length (stringify v))%nat.
Proof. destruct v; simpl; lia. Qed.

Lemma elems_toks_length vs : (1 <= List.length (elems_toks vs))%nat.
Proof. destruct vs; simpl; rewrite ?length_app; [|pose proof (stringify_length j)]; simpl; lia. Qed.

Lemma members_toks_length ms : (1 <= List.length (members_toks ms))%nat.
Proof. destruct ms as [|[k w] ms]; simpl; lia. Qed.

Lemma head_is_stringify t v ts : t = RBrack \/ t = RBrace ->
  head_is t (stringify v ++ ts) = false.
Proof. intros [-> | ->]; destruct v; reflexivity. Qed.

Lemma parse_stringify_fuel : forall f,
  (forall v ts, (List.length (stringify v) <= f)%nat ->
     parse_value f (stringify v ++ ts) = Some (v, ts)) /\
  (forall vs ts, vs <> [] -> (List.length (elems_toks vs) <= f)%nat ->
     parse_elems f (elems_toks vs ++ ts) = Some (vs, ts)) /\
  (forall ms ts, ms <> [] -> (List.length (members_toks ms) <= f)%nat ->
     parse_members f (members_toks ms ++ ts) = Some (ms, ts)).
Proof.
  induction f as [|f (IHv & IHe & IHm)].
  { split; [|split]; intros.
    - pose proof (stringify_length v); lia.
    - pose proof (elems_toks_length vs); lia.
    - pose proof (members_toks_length ms); lia. }
  split; [|split].
  - intros [| n | s | vs | ms] ts Hl; try reflexivity.
    + rewrite stringify_arr in *. destruct vs as [|w ws]; [reflexivity|].
      simpl in Hl. cbn [app parse_value].
      replace (head_is RBrack (elems_toks (w :: ws) ++ ts)) with false.
      2:{ cbn [elems_toks]. rewrite <- !app_assoc. symmetry. apply head_is_stringify. auto. }
      rewrite IHe; [reflexivity | discriminate | cbn [elems_toks]; lia].
    + rewrite stringify_obj in *. destruct ms as [|[k w] ms]; [reflexivity|].
      simpl in Hl. cbn [app parse_value].
      rewrite IHm; [reflexivity | discriminate | cbn [members_toks List.length] in *; lia].
  - intros [|w ws] ts Hne Hl; [congruence|].
    cbn [elems_toks] in *. rewrite !length_app in Hl.
    pose proof (stringify_length w). pose proof (elems_toks_length ws).
    cbn [parse_elems]. rewrite <- !app_assoc. rewrite IHv by lia.
    destruct ws as [|w' ws']; [reflexivity|].
    cbn [sep app]. rewrite IHe; [reflexivity | discriminate |].
    cbn [sep List.length] in Hl. lia.
  - intros [|[k w] ms] ts Hne Hl; [congruence|].
    cbn [members_toks] in *. cbn [List.length] in Hl. rewrite !length_app in Hl.
    pose proof (stringify_length w). pose proof (members_toks_length ms).
    cbn [app parse_members]. rewrite <- !app_assoc. rewrite IHv by lia.
    destruct ms as [|[k' w'] ms']; [reflexivity|].
    cbn [sep app]. rewrite IHm; [reflexivity | discriminate |].
    cbn [sep List.length] in Hl. lia.
Qed.

Lemma strip_ws_app a b : strip_ws (a ++ b) = strip_ws a ++ strip_ws b.
Proof. apply filter_app. Qed.

Lemma strip_stringify_fuel : forall f,
  (forall v, (List.length (stringify v) <= f)%nat -> strip_ws (stringify v) = stringify v) /\
  (forall vs, (List.length (elems_toks vs) <= f)%nat ->
     strip_ws (elems_toks vs) = elems_toks vs) /\
  (forall ms, (List.length (members_toks ms) <= f)%nat ->
     strip_ws (members_toks ms) = members_toks ms).
Proof.
  assert (Hsep : forall {A} (l : list A), strip_ws (sep l) = sep l) by (intros A [|]; reflexivity).
  induction f as [|f (IHv & IHe & IHm)].
  { split; [|split]; intros.
    - pose proof (stringify_length v); lia.
    - pose proof (elems_toks_length vs); lia.
    - pose proof (members_toks_length ms); lia. }
  split; [|split].
  - intros [| n | s | vs | ms] Hl; try reflexivity.
    + rewrite stringify_arr in *. cbn [List.length] in Hl.
      change (strip_ws (LBrack :: elems_toks vs)) with (LBrack :: strip_ws (elems_toks vs)).
      rewrite IHe by lia. reflexivity.
    + rewrite stringify_obj in *. cbn [List.length] in Hl.
      change (strip_ws (LBrace :: members_toks ms)) with (LBrace :: strip_ws (members_toks ms)).
      rewrite IHm by lia. reflexivity.
  - intros [|w ws] Hl; [reflexivity|].
    cbn [elems_toks] in *. rewrite !length_app in Hl.
    pose proof (stringify_length w). pose proof (elems_toks_length ws).
    rewrite !strip_ws_app, Hsep, IHv, IHe by lia. reflexivity.
  - intros [|[k w] ms] Hl; [reflexivity|].
    cbn [members_toks] in *. cbn [List.length] in Hl. rewrite !length_app in Hl.
    pose proof (stringify_length w). pose proof (members_toks_length ms).
    change (strip_ws (TStr k :: Colon :: stringify w ++ sep ms ++ members_toks ms))
      with (TStr k :: Colon :: strip_ws (stringify w ++ sep ms ++ members_toks ms)).
    rewrite !strip_ws_app, Hsep, IHv, IHm by lia. reflexivity.
Qed.

Lemma strip_ws_stringify v : strip_ws (stringify v) = stringify v.
Proof. apply (proj1 (strip_stringify_fuel (List.length (stringify v)))). lia. Qed.

Lemma json_parse_stringify v : json_parse (stringify v) = Some v.
Proof.
  unfold json_parse. rewrite strip_ws_stringify. rewrite <- (app_nil_r (stringify v)) at 2.
  destruct (parse_stringify_fuel (S (List.length (stringify v)))) as [H _].
  rewrite H by lia. reflexivity.
Qed.

(** ** The draft commit policy *)

(** A draft carries the geometry fields of its own kind. *)
Definition wf_draft (d : Shape.t) : Prop :=
  match Shape.type d with
  | rectangle => Shape.width d <> None /\ Shape.height d <> None
  | circle => Shape.radius d <> None
  | line => Shape.x2 d <> None /\ Shape.y2 d <> None
  end.

(** The extent of a draft clears the 5-unit threshold: both sides of a
    rectangle, the radius of a circle, the length of a line. *)
Definition clears_threshold (d : Shape.t) : Prop :=
  match Shape.type d with
  | rectangle => exists w h, Shape.width d = Some w /\ Shape.height d = Some h
                   /\ 5 <= Rabs w /\ 5 <= Rabs h
  | circle => exists r, Shape.radius d = Some r /\ 5 <= r
  | line => exists a b, Shape.x2 d = Some a /\ Shape.y2 d = Some b
              /\ 5 <= sqrt ((a - Shape.x d) ^ 2 + (b - Shape.y d) ^ 2)
  end.

Lemma Rltb_false a b : Rltb a b = false <-> b <= a.
Proof. unfold Rltb. destruct (Rlt_dec a b); split; intros; try lra; discriminate. Qed.

Lemma Rltb_true a b : Rltb a b = true <-> a < b.
Proof. unfold Rltb. destruct (Rlt_dec a b); split; intros; try lra; discriminate. Qed.

Lemma Rltb_cases a b : (Rltb a b = true /\ a < b) \/ (Rltb a b = false /\ b <= a).
Proof. destruct (Rltb a b) eqn:E; [left; split; [reflexivity|]; apply Rltb_true; exact E
  | right; split; [reflexivity|]; apply Rltb_false; exact E]. Qed.

Lemma sqr_pow2 a : a ^ 2 = a * a.
Proof. ring. Qed.

Lemma clears_wf d : clears_threshold d -> wf_draft d.
Proof.
  unfold clears_threshold, wf_draft.
  destruct (Shape.type d).
  - intros (w & h & -> & -> & _). split; discriminate.
  - intros (r & -> & _). discriminate.
  - intros (a & b & -> & -> & _). split; discriminate.
Qed.

Lemma too_small_clears d : wf_draft d ->
  (too_small d = false <-> clears_threshold d).
Proof.
  unfold wf_draft, too_small, clears_threshold.
  destruct d as [i k x y st sw ss w h r f a b]; cbn [Shape.type Shape.width
    Shape.height Shape.radius Shape.x2 Shape.y2 Shape.x Shape.y].
  destruct k; cbn [ShapeType_eqb andb orb].
  - intros [Hw Hh]. destruct w as [w|]; [|congruence]. destruct h as [h|]; [|congruence].
    cbn [nabs nlt option_map]. rewrite !orb_false_r, orb_false_iff, !Rltb_false.
    split.
    + intros [H1 H2]. exists w, h. auto.
    + intros (w' & h' & E1 & E2 & H1 & H2). injection E1 as <-. injection E2 as <-. auto.
  - intros Hr. destruct r as [r|]; [|congruence].
    cbn [nlt]. rewrite !orb_false_r, Rltb_false. split.
    + intros H. exists r. auto.
    + intros (r' & E & H). injection E as <-. exact H.
  - intros [Ha Hb]. destruct a as [a|]; [|congruence]. destruct b as [b|]; [|congruence].
    cbn [nsub nhypot nlt option_map]. rewrite Rltb_false. split.
    + intros H. exists a, b. rewrite !sqr_pow2. auto.
    + intros (a' & b' & E1 & E2 & H). injection E1 as <-. injection E2 as <-.
      rewrite !sqr_pow2 in H. exact H.
Qed.

Lemma handleMouseUp_shapes st d :
  isDrawing st = true -> newShape st = Some d ->
  shapes (handleMouseUp st) =
    if too_small d then shapes st else shapes st ++ [commit_shape d].
Proof.
  intros Hd Hn. unfold handleMouseUp. rewrite Hd, Hn. simpl.
  destruct (too_small d); reflexivity.
Qed.

(** C1: at pointer-up the draft is appended exactly when its extent clears
    the 5-unit threshold (both sides of a rectangle, the radius of a
    circle, the Euclidean length of a line); a discarded draft leaves the
    shape list unchanged. *)
Theorem commit_threshold (st : State) (d : Shape.t)
    (Hd : isDrawing st = true) (Hn : newShape st = Some d) (Hwf : wf_draft d) :
  ((exists s, shapes (handleMouseUp st) = shapes st ++ [s]) <-> clears_threshold d)
  /\ (clears_threshold d -> shapes (handleMouseUp st) = shapes st ++ [commit_shape d])
  /\ (~ clears_threshold d -> shapes (handleMouseUp st) = shapes st).
Proof.
  pose proof (too_small_clears d Hwf) as Hc.
  rewrite (handleMouseUp_shapes st d Hd Hn).
  destruct (too_small d) eqn:E.
  - assert (~ clears_threshold d) as Hn' by (rewrite <- Hc; discriminate).
    split; [|split]; [|tauto|reflexivity].
    split; [|tauto]. intros [s Hs].
    apply (f_equal (@List.length Shape.t)) in Hs.
    rewrite length_app in Hs. simpl in Hs. lia.
  - assert (clears_threshold d) as Hy by (apply Hc; reflexivity).
    split; [|split]; [|reflexivity|tauto].
    split; [tauto|]. intros _. eauto.
Qed.

Lemma commit_shape_rectangle d w h :
  Shape.type d = rectangle -> Shape.width d = Some w -> Shape.height d = Some h ->
  commit_shape d =
    Shape.mk (Shape.id d) rectangle
      (if Rltb w 0 then Shape.x d + w else Shape.x d)
      (if Rltb h 0 then Shape.y d + h else Shape.y d)
      (Shape.stroke d) (Shape.strokeWidth d) (Shape.strokeStyle d)
      (Some (Rabs w)) (Some (Rabs h)) (Shape.radius d) (Shape.fill d)
      (Shape.x2 d) (Shape.y2 d).
Proof.
  destruct d as [i k x y st sw ss w0 h0 r f a b]; cbn [Shape.type Shape.width Shape.height].
  intros -> -> ->. unfold commit_shape, normalize_axis. cbn [Shape.type Shape.x Shape.y
    Shape.width Shape.height].
  destruct (Rltb w 0) eqn:Ew; destruct (Rltb h 0) eqn:Eh;
    rewrite ?Rltb_true in *; rewrite ?Rltb_false in *;
    unfold Shape.merge; simpl;
    rewrite ?(Rabs_right w) by lra; rewrite ?(Rabs_right h) by lra; reflexivity.
Qed.

(** C2: a rectangle that passes the size check is committed with a top-left
    anchor and non-negative sides: a negative side shifts the anchor by that
    amount and is stored as its absolute value; id, kind and style are kept;
    circles and lines are committed as they are. *)
Theorem commit_rectangle_normalized (st : State) (d : Shape.t)
    (Hd : isDrawing st = true) (Hn : newShape st = Some d)
    (Hc : clears_threshold d) :
  exists c, shapes (handleMouseUp st) = shapes st ++ [c]
  /\ (Shape.type d = rectangle -> forall w h,
        Shape.width d = Some w -> Shape.height d = Some h ->
        Shape.width c = Some (Rabs w) /\ Shape.height c = Some (Rabs h)
        /\ 0 <= Rabs w /\ 0 <= Rabs h
        /\ (w < 0 -> Shape.x c = Shape.x d + w) /\ (0 <= w -> Shape.x c = Shape.x d)
        /\ (h < 0 -> Shape.y c = Shape.y d + h) /\ (0 <= h -> Shape.y c = Shape.y d)
        /\ Shape.id c = Shape.id d /\ Shape.type c = rectangle
        /\ Shape.stroke c = Shape.stroke d /\ Shape.strokeWidth c = Shape.strokeWidth d
        /\ Shape.strokeStyle c = Shape.strokeStyle d /\ Shape.fill c = Shape.fill d)
  /\ (Shape.type d <> rectangle -> c = d).
Proof.
  assert (too_small d = false) as Hs by (apply (too_small_clears d (clears_wf d Hc)); exact Hc).
  exists (commit_shape d). split.
  { rewrite (handleMouseUp_shapes st d Hd Hn), Hs. reflexivity. }
  split.
  - intros Ht w h Hw Hh. rewrite (commit_shape_rectangle d w h Ht Hw Hh). cbn.
    pose proof (Rabs_pos w). pose proof (Rabs_pos h).
    repeat split; auto; intros Hlt;
      first [ rewrite (proj2 (Rltb_true _ _)) by lra; reflexivity
            | rewrite (proj2 (Rltb_false _ _)) by lra; reflexivity ].
  - intros Ht. unfold commit_shape. destruct (Shape.type d); congruence.
Qed.

Definition sample_rect : Shape.t :=
  Shape.mk "r1" rectangle 100 100 "#000000" 2 solid (Some (-40)) (Some 30) None
    (Some "#88ccff"%string) None None.

Definition drafting_state (d : Shape.t) : State :=
  mkState [] rectangle None "#000000" (Some "#88ccff"%string) 2 solid true (Some d).

(** The commit of a rectangle drawn leftwards from (100,100): width -40,
    height 30 is stored as x = 60, y = 100, width 40, height 30. *)
Example commit_sample_rect :
  shapes (handleMouseUp (drafting_state sample_rect)) =
    [Shape.mk "r1" rectangle 60 100 "#000000" 2 solid (Some 40) (Some 30) None
       (Some "#88ccff"%string) None None].
Proof.
  rewrite (handleMouseUp_shapes _ sample_rect) by reflexivity.
  assert (too_small sample_rect = false) as ->.
  { apply too_small_clears; [split; discriminate|].
    exists (-40), 30. rewrite (Rabs_left (-40)), (Rabs_right 30) by lra.
    repeat split; lra. }
  rewrite (commit_shape_rectangle sample_rect (-40) 30) by reflexivity.
  rewrite (proj2 (Rltb_true (-40) 0)) by lra.
  rewrite (proj2 (Rltb_false 30 0)) by lra.
  rewrite Rabs_left, Rabs_right by lra. simpl.
  repeat f_equal; lra.
Qed.

Lemma commit_threshold_witness :
  isDrawing (drafting_state sample_rect) = true
  /\ newShape (drafting_state sample_rect) = Some sample_rect
  /\ wf_draft sample_rect
  /\ ((exists s, shapes (handleMouseUp (drafting_state sample_rect))
                 = shapes (drafting_state sample_rect) ++ [s])
        <-> clears_threshold sample_rect)
  /\ (clears_threshold sample_rect ->
        shapes (handleMouseUp (drafting_state sample_rect))
        = shapes (drafting_state sample_rect) ++ [commit_shape sample_rect])
  /\ (~ clears_threshold sample_rect ->
        shapes (handleMouseUp (drafting_state sample_rect))
        = shapes (drafting_state sample_rect)).
Proof.
  assert (wf_draft sample_rect) as Hwf by (split; discriminate).
  split; [reflexivity|]. split; [reflexivity|]. split; [exact Hwf|].
  apply (commit_threshold (drafting_state sample_rect) sample_rect);
    [reflexivity | reflexivity | exact Hwf].
Defined.

Lemma commit_rectangle_normalized_witness :
  isDrawing (drafting_state sample_rect) = true
  /\ newShape (drafting_state sample_rect) = Some sample_rect
  /\ clears_threshold sample_rect
  /\ exists c, shapes (handleMouseUp (drafting_state sample_rect))
               = shapes (drafting_state sample_rect) ++ [c]
  /\ (Shape.type sample_rect = rectangle -> forall w h,
        Shape.width sample_rect = Some w -> Shape.height sample_rect = Some h ->
        Shape.width c = Some (Rabs w) /\ Shape.height c = Some (Rabs h)
        /\ 0 <= Rabs w /\ 0 <= Rabs h
        /\ (w < 0 -> Shape.x c = Shape.x sample_rect + w)
        /\ (0 <= w -> Shape.x c = Shape.x sample_rect)
        /\ (h < 0 -> Shape.y c = Shape.y sample_rect + h)
        /\ (0 <= h -> Shape.y c = Shape.y sample_rect)
        /\ Shape.id c = Shape.id sample_rect /\ Shape.type c = rectangle
        /\ Shape.stroke c = Shape.stroke sample_rect
        /\ Shape.strokeWidth c = Shape.strokeWidth sample_rect
        /\ Shape.strokeStyle c = Shape.strokeStyle sample_rect
        /\ Shape.fill c = Shape.fill sample_rect)
  /\ (Shape.type sample_rect <> rectangle -> c = sample_rect).
Proof.
  assert (clears_threshold sample_rect) as Hc.
  { exists (-40), 30. rewrite (Rabs_left (-40)), (Rabs_right 30) by lra.
    repeat split; lra. }
  split; [reflexivity|]. split; [reflexivity|]. split; [exact Hc|].
  apply (commit_rectangle_normalized (drafting_state sample_rect) sample_rect);
    [reflexivity | reflexivity | exact Hc].
Defined.

(** ** Persistence *)

Definition empty_store : Store := fun _ => None.

(** C3 (as stated, refuted): an entry holding the unparsable text [[] is
    not replaced by the empty list: [JSON.parse] throws and [App]'s
    initialiser has no handler for it; the same holds for an entry of
    whitespace only, which is truthy. *)
Lemma load_unparsable_counterexample :
  json_parse [LBrack] = None
  /\ loadDrawing (setItem empty_store "drawing" [LBrack]) = Throw SyntaxError
  /\ loadDrawing (setItem empty_store "drawing" [LBrack]) <> Ok (JArr [])
  /\ loadDrawing (setItem empty_store "drawing" [Ws]) = Throw SyntaxError.
Proof. split; [reflexivity|]. split; [reflexivity|]. split; [discriminate|reflexivity]. Qed.

(** C3 (amended): Load yields the empty list when the entry under
    "drawing" is absent or is the empty string; a non-empty entry that
    [JSON.parse] rejects (whitespace only included) makes Load throw a
    [SyntaxError]. *)
Theorem load_fallback (ls : Store) :
  (ls "drawing"%string = None -> loadDrawing ls = Ok (JArr []))
  /\ (ls "drawing"%string = Some [] -> loadDrawing ls = Ok (JArr []))
  /\ (forall t, ls "drawing"%string = Some t -> t <> [] -> json_parse t = None ->
        loadDrawing ls = Throw SyntaxError).
Proof.
  unfold loadDrawing. split; [|split].
  - intros ->. reflexivity.
  - intros ->. reflexivity.
  - intros t -> Ht Hp. destruct t as [|t0 t']; [congruence|]. rewrite Hp. reflexivity.
Qed.

(** An entry holding a single space is truthy, [JSON.parse(" ")] throws. *)
Lemma load_fallback_witness :
  setItem empty_store "drawing" [Ws] "drawing"%string = Some [Ws]
  /\ [Ws] <> []
  /\ json_parse [Ws] = None
  /\ loadDrawing (setItem empty_store "drawing" [Ws]) = Throw SyntaxError.
Proof.
  assert (H1 : setItem empty_store "drawing" [Ws] "drawing"%string = Some [Ws]) by reflexivity.
  assert (H2 : [Ws] <> []) by discriminate.
  assert (H3 : json_parse [Ws] = None) by reflexivity.
  split; [exact H1|]. split; [exact H2|]. split; [exact H3|].
  exact (proj2 (proj2 (load_fallback (setItem empty_store "drawing" [Ws]))) [Ws] H1 H2 H3).
Defined.

(** C4: loading after saving yields the saved shape list, as JavaScript
    values, for every shape list. *)
Theorem load_save_roundtrip (st : State) (ls : Store) :
  loadDrawing (saveDrawing st ls) = Ok (JArr (map shape_to_js (shapes st))).
Proof.
  unfold loadDrawing, saveDrawing, setItem. rewrite String.eqb_refl.
  rewrite stringify_arr. cbv beta iota.
  rewrite <- stringify_arr, json_parse_stringify. reflexivity.
Qed.

(** ** The draft builder and the draft updater *)

(** C5: a pointer-down on the empty canvas at (px, py) builds a draft of
    the current tool with id [uuid], anchored at (px, py), of zero extent,
    carrying the current style; drafting starts and the selection is
    cleared. *)
Theorem mouseDown_builds_draft (st : State) (px py : R) (uuid : string) :
  let st' := handleMouseDown st true (Some (px, py)) uuid in
  isDrawing st' = true /\ selectedId st' = None /\ shapes st' = shapes st
  /\ exists d, newShape st' = Some d
     /\ Shape.id d = uuid /\ Shape.type d = tool st
     /\ Shape.x d = px /\ Shape.y d = py
     /\ Shape.stroke d = strokeColor st /\ Shape.strokeWidth d = strokeWidth st
     /\ Shape.strokeStyle d = strokeStyle st
     /\ match tool st with
        | rectangle => Shape.width d = Some 0 /\ Shape.height d = Some 0
                       /\ Shape.fill d = fillColor st
        | circle => Shape.radius d = Some 0 /\ Shape.fill d = fillColor st
        | line => Shape.x2 d = Some px /\ Shape.y2 d = Some py
        end.
Proof.
  cbn zeta. unfold handleMouseDown. cbn [negb].
  repeat split; try reflexivity.
  destruct (tool st); eexists; repeat split; reflexivity.
Qed.

(** The updater depends on the previous draft only through the fields it
    does not overwrite. *)
Lemma move_draft_idem d a b px py :
  move_draft (move_draft d a b) px py = move_draft d px py.
Proof. destruct d as [i [] x y st sw ss w h r f u v]; reflexivity. Qed.

Lemma handleMouseMove_drafting st d p :
  isDrawing st = true -> newShape st = Some d ->
  isDrawing (handleMouseMove st p) = true
  /\ exists e, newShape (handleMouseMove st p) = Some e
     /\ forall px py, move_draft e px py = move_draft d px py.
Proof.
  intros Hd Hn. unfold handleMouseMove. rewrite Hd, Hn. cbn [negb].
  destruct p as [[a b]|].
  - split; [reflexivity|]. exists (move_draft d a b). split; [reflexivity|].
    intros. apply move_draft_idem.
  - split; [assumption|]. exists d. auto.
Qed.

Lemma fold_moves st d pts :
  isDrawing st = true -> newShape st = Some d ->
  isDrawing (fold_left handleMouseMove pts st) = true
  /\ exists e, newShape (fold_left handleMouseMove pts st) = Some e
     /\ forall px py, move_draft e px py = move_draft d px py.
Proof.
  revert st d. induction pts as [|p pts IH]; intros st d Hd Hn; simpl.
  - split; [assumption|]. exists d. auto.
  - destruct (handleMouseMove_drafting st d p Hd Hn) as (Hd' & e & He & Hm).
    destruct (IH _ e Hd' He) as (Hd'' & e' & He' & Hm').
    split; [assumption|]. exists e'. split; [assumption|].
    intros. rewrite Hm'. apply Hm.
Qed.

(** C6: while drafting, the draft's geometry after any sequence of
    pointer-moves ending at (px, py) depends on that last point only:
    width/height are the signed offsets from the anchor for a rectangle,
    the radius is the anchor distance for a circle, the endpoint is the
    point for a line; the anchor, id, kind and style are kept.  When no
    draft is in progress a pointer-move changes nothing. *)
Theorem mouseMove_latest_point (st : State) (d : Shape.t)
    (pts : list (option (R * R))) (px py : R) :
  (isDrawing st = false -> forall p, handleMouseMove st p = st)
  /\ (isDrawing st = true -> newShape st = Some d ->
      exists e, newShape (fold_left handleMouseMove (pts ++ [Some (px, py)]) st) = Some e
      /\ Shape.id e = Shape.id d /\ Shape.type e = Shape.type d
      /\ Shape.x e = Shape.x d /\ Shape.y e = Shape.y d
      /\ Shape.stroke e = Shape.stroke d /\ Shape.strokeWidth e = Shape.strokeWidth d
      /\ Shape.strokeStyle e = Shape.strokeStyle d /\ Shape.fill e = Shape.fill d
      /\ match Shape.type d with
         | rectangle => Shape.width e = Some (px - Shape.x d)
                        /\ Shape.height e = Some (py - Shape.y d)
         | circle => Shape.radius e =
                       Some (sqrt ((px - Shape.x d) ^ 2 + (py - Shape.y d) ^ 2))
         | line => Shape.x2 e = Some px /\ Shape.y2 e = Some py
         end).
Proof.
  split.
  - intros Hd p. unfold handleMouseMove. rewrite Hd. reflexivity.
  - intros Hd Hn.
    destruct (fold_moves st d pts Hd Hn) as (Hd' & e & He & Hm).
    rewrite fold_left_app. cbn [fold_left].
    set (s := fold_left handleMouseMove pts st) in *.
    exists (move_draft e px py). split.
    { unfold handleMouseMove. rewrite Hd', He. reflexivity. }
    rewrite Hm. rewrite !sqr_pow2.
    destruct d as [i [] x y st0 sw ss w h r f u v]; repeat split; reflexivity.
Qed.

Lemma mouseMove_latest_point_witness :
  (isDrawing (drafting_state sample_rect) = false ->
     forall p, handleMouseMove (drafting_state sample_rect) p = drafting_state sample_rect)
  /\ (isDrawing (drafting_state sample_rect) = true ->
      newShape (drafting_state sample_rect) = Some sample_rect ->
      exists e, newShape (fold_left handleMouseMove ([Some (3, 4); None] ++ [Some (10, 20)])
                            (drafting_state sample_rect)) = Some e
      /\ Shape.id e = Shape.id sample_rect /\ Shape.type e = Shape.type sample_rect
      /\ Shape.x e = Shape.x sample_rect /\ Shape.y e = Shape.y sample_rect
      /\ Shape.stroke e = Shape.stroke sample_rect
      /\ Shape.strokeWidth e = Shape.strokeWidth sample_rect
      /\ Shape.strokeStyle e = Shape.strokeStyle sample_rect
      /\ Shape.fill e = Shape.fill sample_rect
      /\ match Shape.type sample_rect with
         | rectangle => Shape.width e = Some (10 - Shape.x sample_rect)
                        /\ Shape.height e = Some (20 - Shape.y sample_rect)
         | circle => Shape.radius e =
             Some (sqrt ((10 - Shape.x sample_rect) ^ 2 + (20 - Shape.y sample_rect) ^ 2))
         | line => Shape.x2 e = Some 10 /\ Shape.y2 e = Some 20
         end).
Proof.
  exact (mouseMove_latest_point (drafting_state sample_rect) sample_rect
           [Some (3, 4); None] 10 20).
Defined.

(** ** Selection and style application *)

Lemma NoDup_map_same {A B} (f : A -> B) (l : list A) (a b : A) :
  NoDup (map f l) -> In a l -> In b l -> f a = f b -> a = b.
Proof.
  induction l as [|c l IH]; simpl; intros Hnd Ha Hb E; [contradiction|].
  inversion Hnd as [|? ? Hnin Hnd']; subst.
  destruct Ha as [<-|Ha], Hb as [<-|Hb]; auto; exfalso; apply Hnin.
  - rewrite E. apply in_map. exact Hb.
  - rewrite <- E. apply in_map. exact Ha.
Qed.

(** The selected shape after style application, as the claim describes it:
    stroke color, width and style from the pending style, the fill too
    unless the shape is a line, every other field kept. *)
Definition style_applied (st : State) (s : Shape.t) : Shape.t :=
  Shape.mk (Shape.id s) (Shape.type s) (Shape.x s) (Shape.y s)
    (strokeColor st) (strokeWidth st) (strokeStyle st)
    (Shape.width s) (Shape.height s) (Shape.radius s)
    (if ShapeType_eqb (Shape.type s) line then Shape.fill s else fillColor st)
    (Shape.x2 s) (Shape.y2 s).

(** C7: with nothing selected, ApplyStyle changes nothing; otherwise (ids
    being unique, as [uuidv4] makes them) it replaces the selected shape by
    its restyled version and keeps every other shape; the fill of a line is
    never changed. *)
Theorem applyStyle_frame (st : State) :
  (selectedId st = None -> applyStyleToSelected st = st)
  /\ (forall sel, selectedId st = Some sel -> sel <> ""%string ->
        NoDup (map Shape.id (shapes st)) ->
        applyStyleToSelected st =
          set_shapes st (map (fun s => if String.eqb (Shape.id s) sel
                                       then style_applied st s else s) (shapes st))
        /\ (forall n s s', nth_error (shapes st) n = Some s ->
              nth_error (shapes (applyStyleToSelected st)) n = Some s' ->
              Shape.type s = line -> Shape.fill s' = Shape.fill s)).
Proof.
  split.
  - intros H. unfold applyStyleToSelected. rewrite H. reflexivity.
  - intros sel Hsel Hne Hnd.
    assert (applyStyleToSelected st =
          set_shapes st (map (fun s => if String.eqb (Shape.id s) sel
                                       then style_applied st s else s) (shapes st))) as E.
    { unfold applyStyleToSelected. rewrite Hsel.
      assert (truthy_id (Some sel) = true) as ->.
      { simpl. destruct (String.eqb_spec sel ""); [contradiction|reflexivity]. }
      cbn [negb]. f_equal. unfold updateShape. apply map_ext_in. intros s Hin.
      destruct (String.eqb_spec (Shape.id s) sel) as [Hid|]; [|reflexivity].
      destruct (find (fun s => String.eqb (Shape.id s) sel) (shapes st)) as [s0|] eqn:Ef.
      - apply find_some in Ef as [Hin0 Hid0]. apply String.eqb_eq in Hid0.
        assert (s0 = s) as -> by (apply (NoDup_map_same Shape.id (shapes st)); congruence).
        destruct s as [i [] x y c w ss wd ht r f u v]; reflexivity.
      - pose proof (find_none _ _ Ef s Hin) as Hf. simpl in Hf.
        rewrite Hid, String.eqb_refl in Hf. discriminate. }
    split; [exact E|].
    intros n s s' Hs Hs' Ht. rewrite E in Hs'. simpl in Hs'.
    rewrite nth_error_map, Hs in Hs'. simpl in Hs'. injection Hs' as <-.
    destruct (String.eqb (Shape.id s) sel); [|reflexivity].
    unfold style_applied. rewrite Ht. reflexivity.
Qed.

Definition sample_line : Shape.t :=
  Shape.mk "l1" line 0 0 "#ff0000" 3 dashed None None None None (Some 50) (Some 50).

Definition idle_state : State :=
  mkState [sample_rect; sample_line] rectangle None "#000000"
    (Some "#123456"%string) 2 solid false None.

Definition selected_state : State :=
  mkState [sample_rect; sample_line] rectangle (Some "l1"%string) "#00ff00"
    (Some "#123456"%string) 5 solid false None.

Lemma applyStyle_frame_witness :
  selectedId selected_state = Some "l1"%string /\ "l1"%string <> ""%string
  /\ NoDup (map Shape.id (shapes selected_state))
  /\ applyStyleToSelected selected_state =
       set_shapes selected_state
         (map (fun s => if String.eqb (Shape.id s) "l1"
                        then style_applied selected_state s else s) (shapes selected_state))
  /\ (forall n s s', nth_error (shapes selected_state) n = Some s ->
        nth_error (shapes (applyStyleToSelected selected_state)) n = Some s' ->
        Shape.type s = line -> Shape.fill s' = Shape.fill s).
Proof.
  assert (NoDup (map Shape.id (shapes selected_state))) as Hnd.
  { simpl. constructor; [simpl; intros [H|[]]; discriminate|].
    constructor; [intros []|constructor]. }
  split; [reflexivity|]. split; [discriminate|]. split; [exact Hnd|].
  apply (proj2 (applyStyle_frame selected_state) "l1"%string);
    [reflexivity | discriminate | exact Hnd].
Defined.

Lemma selectShape_shapes st n : shapes (selectShape st n) = shapes st.
Proof. unfold selectShape. destruct (nth_error (shapes st) n); reflexivity. Qed.

(** C8 (as stated, refuted): selecting a rectangle and then a line leaves
    the rectangle's fill in the pending style, so the record is not the
    one that selecting the line alone gives. *)
Lemma select_merge_counterexample :
  fillColor (selectShape (selectShape idle_state 0) 1) = Shape.fill sample_rect
  /\ pendingStyle (selectShape (selectShape idle_state 0) 1)
     <> pendingStyle (selectShape idle_state 1).
Proof.
  split; [reflexivity|]. cbn. intros H. inversion H.
Qed.

(** One click on the [n]-th shape, from any state: the selection becomes
    its id and the pending stroke color, width and style become its own;
    the pending fill becomes its fill unless it is a line, and is left as
    it was for a line. *)
Lemma selectShape_copies (st : State) (n : nat) (A : Shape.t) :
  nth_error (shapes st) n = Some A ->
  let st1 := selectShape st n in
  selectedId st1 = Some (Shape.id A)
  /\ strokeColor st1 = Shape.stroke A /\ strokeWidth st1 = Shape.strokeWidth A
  /\ strokeStyle st1 = Shape.strokeStyle A
  /\ (Shape.type A <> line -> fillColor st1 = Shape.fill A)
  /\ (Shape.type A = line -> fillColor st1 = fillColor st)
  /\ shapes st1 = shapes st.
Proof.
  intros HA. cbn zeta. unfold selectShape. rewrite HA. cbn.
  repeat split; try reflexivity.
  - intros Ht. destruct (Shape.type A); [reflexivity|reflexivity|congruence].
  - intros ->. reflexivity.
Qed.

(** C8 (amended): selecting a shape A, from any state (the initial one,
    one with a drawing in progress, one whose side panel was edited), sets
    [selectedId] to A's id and copies A's stroke color, width and style
    into the pending style, and A's fill unless A is a line (for a line the
    pending fill is left as it was).  Selecting a shape B next sets
    [selectedId] to B's id and the pending stroke color, width and style to
    B's; the pending fill becomes B's fill when B is not a line and keeps
    the value it had after selecting A when B is a line. *)
Theorem select_then_select (st : State) (a b : nat) (A B : Shape.t)
    (HA : nth_error (shapes st) a = Some A) (HB : nth_error (shapes st) b = Some B) :
  let st1 := selectShape st a in
  let st2 := selectShape st1 b in
  selectedId st1 = Some (Shape.id A)
  /\ strokeColor st1 = Shape.stroke A /\ strokeWidth st1 = Shape.strokeWidth A
  /\ strokeStyle st1 = Shape.strokeStyle A
  /\ (Shape.type A <> line -> fillColor st1 = Shape.fill A)
  /\ (Shape.type A = line -> fillColor st1 = fillColor st)
  /\ selectedId st2 = Some (Shape.id B)
  /\ strokeColor st2 = Shape.stroke B /\ strokeWidth st2 = Shape.strokeWidth B
  /\ strokeStyle st2 = Shape.strokeStyle B
  /\ (Shape.type B <> line -> fillColor st2 = Shape.fill B)
  /\ (Shape.type B = line -> fillColor st2 = fillColor st1)
  /\ shapes st2 = shapes st.
Proof.
  cbn zeta.
  destruct (selectShape_copies st a A HA) as (A1 & A2 & A3 & A4 & A5 & A6 & A7).
  assert (HB1 : nth_error (shapes (selectShape st a)) b = Some B) by (rewrite A7; exact HB).
  destruct (selectShape_copies (selectShape st a) b B HB1) as (B1 & B2 & B3 & B4 & B5 & B6 & B7).
  repeat (split; [assumption|]). rewrite B7. exact A7.
Qed.

Lemma select_then_select_witness :
  nth_error (shapes idle_state) 0 = Some sample_rect
  /\ nth_error (shapes idle_state) 1 = Some sample_line
  /\ (let st1 := selectShape idle_state 0 in
      let st2 := selectShape st1 1 in
      selectedId st1 = Some (Shape.id sample_rect)
      /\ strokeColor st1 = Shape.stroke sample_rect
      /\ strokeWidth st1 = Shape.strokeWidth sample_rect
      /\ strokeStyle st1 = Shape.strokeStyle sample_rect
      /\ (Shape.type sample_rect <> line -> fillColor st1 = Shape.fill sample_rect)
      /\ (Shape.type sample_rect = line -> fillColor st1 = fillColor idle_state)
      /\ selectedId st2 = Some (Shape.id sample_line)
      /\ strokeColor st2 = Shape.stroke sample_line
      /\ strokeWidth st2 = Shape.strokeWidth sample_line
      /\ strokeStyle st2 = Shape.strokeStyle sample_line
      /\ (Shape.type sample_line <> line -> fillColor st2 = Shape.fill sample_line)
      /\ (Shape.type sample_line = line -> fillColor st2 = fillColor st1)
      /\ shapes st2 = shapes idle_state).
Proof.
  split; [reflexivity|]. split; [reflexivity|].
  apply (select_then_select idle_state 0 1 sample_rect sample_line); reflexivity.
Defined.

(** ** Dragging *)

(** C9: dragging a line by the node offset (dx, dy) translates both of its
    endpoints by it, so the offset of the second endpoint from the first is
    unchanged; dragging a rectangle or a circle moves its anchor to the
    dropped position and keeps every other field, its extent included. *)
Theorem dragEnd_translates (st : State) (n : nat) (s : Shape.t) (pos : R * R)
    (Hn : nth_error (shapes st) n = Some s) :
  exists s', nth_error (shapes (onDragEnd st n pos)) n = Some s'
  /\ (Shape.type s = line ->
        s' = Shape.mk (Shape.id s) line (Shape.x s + fst pos) (Shape.y s + snd pos)
               (Shape.stroke s) (Shape.strokeWidth s) (Shape.strokeStyle s)
               (Shape.width s) (Shape.height s) (Shape.radius s) (Shape.fill s)
               (nadd (Shape.x2 s) (fst pos)) (nadd (Shape.y2 s) (snd pos))
        /\ nsub (Shape.x2 s') (Shape.x s') = nsub (Shape.x2 s) (Shape.x s)
        /\ nsub (Shape.y2 s') (Shape.y s') = nsub (Shape.y2 s) (Shape.y s))
  /\ (Shape.type s <> line ->
        s' = Shape.mk (Shape.id s) (Shape.type s) (fst pos) (snd pos)
               (Shape.stroke s) (Shape.strokeWidth s) (Shape.strokeStyle s)
               (Shape.width s) (Shape.height s) (Shape.radius s) (Shape.fill s)
               (Shape.x2 s) (Shape.y2 s)).
Proof.
  unfold onDragEnd. rewrite Hn. cbn [shapes set_shapes]. unfold updateShape.
  rewrite nth_error_map, Hn. cbn [option_map]. rewrite String.eqb_refl.
  exists (Shape.merge s (drag_attrs s pos)). split; [reflexivity|].
  destruct pos as [dx dy].
  destruct s as [i [] x y c w ss wd ht r f u v]; cbn; split; try congruence;
    intros _; repeat split; try reflexivity.
  - destruct u as [u|]; cbn; [f_equal; ring|reflexivity].
  - destruct v as [v|]; cbn; [f_equal; ring|reflexivity].
Qed.

Lemma dragEnd_translates_witness :
  nth_error (shapes idle_state) 1 = Some sample_line
  /\ exists s', nth_error (shapes (onDragEnd idle_state 1 (7, -2))) 1 = Some s'
  /\ (Shape.type sample_line = line ->
        s' = Shape.mk (Shape.id sample_line) line (Shape.x sample_line + fst (7, -2))
               (Shape.y sample_line + snd (7, -2))
               (Shape.stroke sample_line) (Shape.strokeWidth sample_line)
               (Shape.strokeStyle sample_line)
               (Shape.width sample_line) (Shape.height sample_line)
               (Shape.radius sample_line) (Shape.fill sample_line)
               (nadd (Shape.x2 sample_line) (fst (7, -2)))
               (nadd (Shape.y2 sample_line) (snd (7, -2)))
        /\ nsub (Shape.x2 s') (Shape.x s') = nsub (Shape.x2 sample_line) (Shape.x sample_line)
        /\ nsub (Shape.y2 s') (Shape.y s') = nsub (Shape.y2 sample_line) (Shape.y sample_line))
  /\ (Shape.type sample_line <> line ->
        s' = Shape.mk (Shape.id sample_line) (Shape.type sample_line)
               (fst (7, -2)) (snd (7, -2))
               (Shape.stroke sample_line) (Shape.strokeWidth sample_line)
               (Shape.strokeStyle sample_line)
               (Shape.width sample_line) (Shape.height sample_line)
               (Shape.radius sample_line) (Shape.fill sample_line)
               (Shape.x2 sample_line) (Shape.y2 sample_line)).
Proof.
  split; [reflexivity|].
  apply (dragEnd_translates idle_state 1 sample_line (7, -2)). reflexivity.
Defined.

(** ** [updateShape] *)

(** C10: [updateShape] keeps the length and the order of the list, leaves
    every shape with another id as it is, merges the attributes into the
    shapes with the given id, and returns the list unchanged when no shape
    carries the id. *)
Theorem updateShape_frame (i : string) (a : Shape.attrs) (l : list Shape.t) :
  List.length (updateShape i a l) = List.length l
  /\ (forall n s, nth_error l n = Some s -> Shape.id s <> i ->
        nth_error (updateShape i a l) n = Some s)
  /\ (forall n s, nth_error l n = Some s -> Shape.id s = i ->
        nth_error (updateShape i a l) n = Some (Shape.merge s a))
  /\ (Forall (fun s => Shape.id s <> i) l -> updateShape i a l = l).
Proof.
  unfold updateShape. split; [|split; [|split]].
  - apply length_map.
  - intros n s Hs Hid. rewrite nth_error_map, Hs. cbn.
    destruct (String.eqb_spec (Shape.id s) i); [contradiction|reflexivity].
  - intros n s Hs Hid. rewrite nth_error_map, Hs. cbn.
    rewrite Hid, String.eqb_refl. reflexivity.
  - intros Hall. induction Hall as [|s l Hs Hall IH]; [reflexivity|].
    cbn [map]. rewrite IH.
    destruct (String.eqb_spec (Shape.id s) i); [contradiction|reflexivity].
Qed.

(** * Further properties of App *)

(** ** The live preview of a rectangle draft (lines 318-328):
    [let { x, y, width, height } = newShape;
     if (width < 0) { x += width; width = Math.abs(width); }
     if (height < 0) { y += height; height = Math.abs(height); }]. *)
Definition preview_rect (d : Shape.t) : R * R * num * num :=
  let '(x, width) :=
    match Shape.width d with
    | Some w => if Rltb w 0 then (Shape.x d + w, Some (Rabs w)) else (Shape.x d, Some w)
    | None => (Shape.x d, None)
    end in
  let '(y, height) :=
    match Shape.height d with
    | Some h => if Rltb h 0 then (Shape.y d + h, Some (Rabs h)) else (Shape.y d, Some h)
    | None => (Shape.y d, None)
    end in
  (x, y, width, height).

Lemma span_axis (a w : R) :
  let '(p, v) := if Rltb w 0 then (a + w, Rabs w) else (a, w) in
  0 <= v /\ p = Rmin a (a + w) /\ p + v = Rmax a (a + w).
Proof.
  destruct (Rltb_cases w 0) as [[-> Hw]|[-> Hw]]; unfold Rmin, Rmax.
  - rewrite Rabs_left by exact Hw.
    destruct (Rle_dec a (a + w)); repeat split; lra.
  - destruct (Rle_dec a (a + w)); repeat split; lra.
Qed.

(** The preview of a rectangle draft is the rectangle that pointer-up
    commits, and it spans exactly from the anchor to the pointer: its left
    edge is the smaller of [x] and [x + width], its right edge the larger,
    so its width is non-negative; the same holds vertically. *)
Theorem preview_matches_commit (d : Shape.t) (Ht : Shape.type d = rectangle) :
  let c := commit_shape d in
  preview_rect d = (Shape.x c, Shape.y c, Shape.width c, Shape.height c)
  /\ (forall w h, Shape.width d = Some w -> Shape.height d = Some h ->
      exists px py pw ph, preview_rect d = (px, py, Some pw, Some ph)
        /\ 0 <= pw /\ 0 <= ph
        /\ px = Rmin (Shape.x d) (Shape.x d + w) /\ px + pw = Rmax (Shape.x d) (Shape.x d + w)
        /\ py = Rmin (Shape.y d) (Shape.y d + h) /\ py + ph = Rmax (Shape.y d) (Shape.y d + h)).
Proof.
  cbn zeta. split.
  - unfold preview_rect, commit_shape, normalize_axis. rewrite Ht.
    destruct (Shape.width d) as [w|]; [destruct (Rltb w 0)|];
      destruct (Shape.height d) as [h|]; try destruct (Rltb h 0); try reflexivity.
  - intros w h Hw Hh. unfold preview_rect. rewrite Hw, Hh.
    pose proof (span_axis (Shape.x d) w) as Sx. pose proof (span_axis (Shape.y d) h) as Sy.
    destruct (Rltb w 0), (Rltb h 0); cbn in Sx, Sy |- *;
      eexists _, _, _, _; (split; [reflexivity|tauto]).
Qed.

Lemma preview_matches_commit_witness :
  Shape.type sample_rect = rectangle
  /\ (let c := commit_shape sample_rect in
      preview_rect sample_rect = (Shape.x c, Shape.y c, Shape.width c, Shape.height c)
      /\ (forall w h, Shape.width sample_rect = Some w -> Shape.height sample_rect = Some h ->
          exists px py pw ph, preview_rect sample_rect = (px, py, Some pw, Some ph)
            /\ 0 <= pw /\ 0 <= ph
            /\ px = Rmin (Shape.x sample_rect) (Shape.x sample_rect + w)
            /\ px + pw = Rmax (Shape.x sample_rect) (Shape.x sample_rect + w)
            /\ py = Rmin (Shape.y sample_rect) (Shape.y sample_rect + h)
            /\ py + ph = Rmax (Shape.y sample_rect) (Shape.y sample_rect + h))).
Proof. split; [reflexivity|]. exact (preview_matches_commit sample_rect eq_refl). Defined.





(** ** A whole drawing gesture: pointer-down at [p], any pointer-moves,
    the last one at [q], pointer-up. *)
Definition gesture (st : State) (uuid : string) (p : R * R)
    (moves : list (option (R * R))) (q : R * R) : State :=
  handleMouseUp
    (fold_left handleMouseMove (moves ++ [Some q]) (handleMouseDown st true (Some p) uuid)).

Lemma gesture_draft st uuid p moves q :
  exists d, newShape (handleMouseDown st true (Some p) uuid) = Some d
  /\ isDrawing (fold_left handleMouseMove (moves ++ [Some q])
                 (handleMouseDown st true (Some p) uuid)) = true
  /\ newShape (fold_left handleMouseMove (moves ++ [Some q])
                 (handleMouseDown st true (Some p) uuid))
     = Some (move_draft d (fst q) (snd q))
  /\ shapes (fold_left handleMouseMove (moves ++ [Some q])
                 (handleMouseDown st true (Some p) uuid)) = shapes st.
Proof.
  destruct p as [px py], q as [qx qy].
  set (st0 := handleMouseDown st true (Some (px, py)) uuid).
  assert (isDrawing st0 = true) as Hd by reflexivity.
  assert (shapes st0 = shapes st) as Hs by reflexivity.
  destruct (newShape st0) as [d|] eqn:Hn.
  2:{ unfold st0, handleMouseDown in Hn. discriminate. }
  exists d. split; [reflexivity|].
  assert (forall l s, isDrawing s = true ->
            shapes (fold_left handleMouseMove l s) = shapes s) as Hsh.
  { induction l as [|a l IH]; intros s Hds; [reflexivity|]. simpl.
    unfold handleMouseMove at 2. rewrite Hds. cbn [negb].
    destruct (newShape s) as [e|]; [|apply IH; exact Hds].
    destruct a as [[a b]|]; [|apply IH; exact Hds].
    rewrite IH by reflexivity. reflexivity. }
  destruct (fold_moves st0 d moves Hd Hn) as (Hd' & e & He & Hm).
  rewrite fold_left_app. cbn [fold_left fst snd].
  set (s1 := fold_left handleMouseMove moves st0) in *.
  unfold handleMouseMove. rewrite Hd', He. cbn [negb].
  split; [reflexivity|]. split; [rewrite Hm; reflexivity|].
  cbn [set_draft shapes]. unfold s1. rewrite Hsh by exact Hd. exact Hs.
Qed.

Lemma handleMouseUp_drafting s d :
  isDrawing s = true -> newShape s = Some d ->
  handleMouseUp s =
    if too_small d then set_draft s false None
    else set_draft (set_shapes s (shapes s ++ [commit_shape d])) false None.
Proof. intros Hd Hn. unfold handleMouseUp. rewrite Hd, Hn. reflexivity. Qed.

(** Drawing with the rectangle tool from [p] to [q] appends, when both
    sides measure at least 5, the rectangle spanned by [p] and [q] with its
    top-left corner at the smaller coordinates, the generated id and the
    current style, whatever the intermediate pointer-moves; otherwise the
    shape list is unchanged.  Either way the gesture ends drafting. *)
Theorem gesture_rectangle (st : State) (uuid : string) (p : R * R)
    (moves : list (option (R * R))) (q : R * R) (Ht : tool st = rectangle) :
  let st' := gesture st uuid p moves q in
  isDrawing st' = false /\ newShape st' = None
  /\ (5 <= Rabs (fst q - fst p) -> 5 <= Rabs (snd q - snd p) ->
      shapes st' = shapes st ++
        [Shape.mk uuid rectangle (Rmin (fst p) (fst q)) (Rmin (snd p) (snd q))
           (strokeColor st) (strokeWidth st) (strokeStyle st)
           (Some (Rabs (fst q - fst p))) (Some (Rabs (snd q - snd p))) None
           (fillColor st) None None])
  /\ (Rabs (fst q - fst p) < 5 \/ Rabs (snd q - snd p) < 5 -> shapes st' = shapes st).
Proof.
  cbn zeta.
  destruct (gesture_draft st uuid p moves q) as (d & Hd0 & Hdr & Hn & Hs).
  unfold handleMouseDown in Hd0. destruct p as [px py], q as [qx qy].
  rewrite Ht in Hd0. cbn [negb fst snd] in *. injection Hd0 as <-.
  unfold gesture. rewrite (handleMouseUp_drafting _ _ Hdr Hn).
  set (s1 := fold_left handleMouseMove _ _) in *.
  set (d' := move_draft _ qx qy).
  assert (too_small d' = Rltb (Rabs (qx - px)) 5 || Rltb (Rabs (qy - py)) 5) as Hts
    by (unfold too_small; cbn; rewrite !orb_false_r; reflexivity).
  rewrite Hts.
  destruct (Rltb_cases (Rabs (qx - px)) 5) as [[-> Hx]|[-> Hx]];
  destruct (Rltb_cases (Rabs (qy - py)) 5) as [[-> Hy]|[-> Hy]]; cbn [orb];
    (split; [reflexivity|]); (split; [reflexivity|]).
  1-3: split; [intros; lra | intros _; exact Hs].
  split; [|intros [H|H]; lra].
  intros _ _. cbn [shapes set_draft set_shapes]. rewrite Hs. do 2 f_equal.
  rewrite (commit_shape_rectangle d' (qx - px) (qy - py)) by reflexivity.
  unfold d', move_draft. cbn -[Rltb Rmin Rabs Rplus Rminus].
  f_equal.
  - destruct (Rltb_cases (qx - px) 0) as [[-> H]|[-> H]].
    + rewrite Rmin_right by lra. ring.
    + rewrite Rmin_left by lra. reflexivity.
  - destruct (Rltb_cases (qy - py) 0) as [[-> H]|[-> H]].
    + rewrite Rmin_right by lra. ring.
    + rewrite Rmin_left by lra. reflexivity.
Qed.

(** Drawing with the circle tool from [p] to [q] appends, when the
    distance from [p] to [q] is at least 5, the circle centred at [p] with
    that distance as radius, the generated id and the current style;
    otherwise the shape list is unchanged. *)
Theorem gesture_circle (st : State) (uuid : string) (p : R * R)
    (moves : list (option (R * R))) (q : R * R) (Ht : tool st = circle) :
  let st' := gesture st uuid p moves q in
  let r := sqrt ((fst q - fst p) ^ 2 + (snd q - snd p) ^ 2) in
  isDrawing st' = false /\ newShape st' = None
  /\ (5 <= r -> shapes st' = shapes st ++
        [Shape.mk uuid circle (fst p) (snd p) (strokeColor st) (strokeWidth st)
           (strokeStyle st) None None (Some r) (fillColor st) None None])
  /\ (r < 5 -> shapes st' = shapes st).
Proof.
  cbn zeta.
  destruct (gesture_draft st uuid p moves q) as (d & Hd0 & Hdr & Hn & Hs).
  unfold handleMouseDown in Hd0. destruct p as [px py], q as [qx qy].
  rewrite Ht in Hd0. cbn [negb fst snd] in *. injection Hd0 as <-.
  unfold gesture. rewrite (handleMouseUp_drafting _ _ Hdr Hn).
  set (s1 := fold_left handleMouseMove _ _) in *.
  rewrite !sqr_pow2.
  set (r := sqrt ((qx - px) * (qx - px) + (qy - py) * (qy - py))).
  assert (too_small (move_draft (Shape.mk uuid circle px py (strokeColor st)
            (strokeWidth st) (strokeStyle st) None None (Some 0) (fillColor st)
            None None) qx qy) = Rltb r 5) as -> by (unfold too_small; cbn;
    rewrite !orb_false_r; reflexivity).
  destruct (Rltb_cases r 5) as [[-> Hr]|[-> Hr]];
    (split; [reflexivity|]); (split; [reflexivity|]).
  - split; [intros; lra | intros _; exact Hs].
  - split; [|intros; lra]. intros _. cbn [shapes set_draft set_shapes].
    rewrite Hs. reflexivity.
Qed.

Lemma gesture_circle_witness :
  tool (mkState [] circle None "#000000" (Some "#88ccff"%string) 2 solid false None)
    = circle
  /\ (let st' := gesture (mkState [] circle None "#000000" (Some "#88ccff"%string) 2
                            solid false None) "c1" (0, 0) [] (3, 4) in
      let r := sqrt ((fst (3, 4) - fst (0, 0)) ^ 2 + (snd (3, 4) - snd (0, 0)) ^ 2) in
      isDrawing st' = false /\ newShape st' = None
      /\ (5 <= r -> shapes st' = [] ++
            [Shape.mk "c1" circle (fst (0, 0)) (snd (0, 0)) "#000000" 2 solid None None
               (Some r) (Some "#88ccff"%string) None None])
      /\ (r < 5 -> shapes st' = [])).
Proof.
  split; [reflexivity|].
  exact (gesture_circle (mkState [] circle None "#000000" (Some "#88ccff"%string) 2
           solid false None) "c1" (0, 0) [] (3, 4) eq_refl).
Defined.

(** Drawing with the line tool from [p] to [q] appends, when the segment
    is at least 5 long, the line from [p] to [q] with the generated id and
    the current stroke style and no fill; otherwise the shape list is
    unchanged. *)
Theorem gesture_line (st : State) (uuid : string) (p : R * R)
    (moves : list (option (R * R))) (q : R * R) (Ht : tool st = line) :
  let st' := gesture st uuid p moves q in
  let len := sqrt ((fst q - fst p) ^ 2 + (snd q - snd p) ^ 2) in
  isDrawing st' = false /\ newShape st' = None
  /\ (5 <= len -> shapes st' = shapes st ++
        [Shape.mk uuid line (fst p) (snd p) (strokeColor st) (strokeWidth st)
           (strokeStyle st) None None None None (Some (fst q)) (Some (snd q))])
  /\ (len < 5 -> shapes st' = shapes st).
Proof.
  cbn zeta.
  destruct (gesture_draft st uuid p moves q) as (d & Hd0 & Hdr & Hn & Hs).
  unfold handleMouseDown in Hd0. destruct p as [px py], q as [qx qy].
  rewrite Ht in Hd0. cbn [negb fst snd] in *. injection Hd0 as <-.
  unfold gesture. rewrite (handleMouseUp_drafting _ _ Hdr Hn).
  set (s1 := fold_left handleMouseMove _ _) in *.
  rewrite !sqr_pow2.
  set (len := sqrt ((qx - px) * (qx - px) + (qy - py) * (qy - py))).
  assert (too_small (move_draft (Shape.mk uuid line px py (strokeColor st)
            (strokeWidth st) (strokeStyle st) None None None None
            (Some px) (Some py)) qx qy) = Rltb len 5) as -> by (unfold too_small; cbn;
    reflexivity).
  destruct (Rltb_cases len 5) as [[-> Hr]|[-> Hr]];
    (split; [reflexivity|]); (split; [reflexivity|]).
  - split; [intros; lra | intros _; exact Hs].
  - split; [|intros; lra]. intros _. cbn [shapes set_draft set_shapes].
    rewrite Hs. reflexivity.
Qed.

Lemma gesture_line_witness :
  tool (mkState [] line None "#000000" (Some "#88ccff"%string) 2 solid false None)
    = line
  /\ (let st' := gesture (mkState [] line None "#000000" (Some "#88ccff"%string) 2
                            solid false None) "l9" (0, 0) [None] (6, 8) in
      let len := sqrt ((fst (6, 8) - fst (0, 0)) ^ 2 + (snd (6, 8) - snd (0, 0)) ^ 2) in
      isDrawing st' = false /\ newShape st' = None
      /\ (5 <= len -> shapes st' = [] ++
            [Shape.mk "l9" line (fst (0, 0)) (snd (0, 0)) "#000000" 2 solid None None
               None None (Some (fst (6, 8))) (Some (snd (6, 8)))])
      /\ (len < 5 -> shapes st' = [])).
Proof.
  split; [reflexivity|].
  exact (gesture_line (mkState [] line None "#000000" (Some "#88ccff"%string) 2
           solid false None) "l9" (0, 0) [None] (6, 8) eq_refl).
Defined.

Lemma gesture_rectangle_witness :
  tool (drafting_state sample_rect) = rectangle
  /\ (let st' := gesture (drafting_state sample_rect) "r2" (10, 10) [Some (50, 50)] (110, 60) in
      isDrawing st' = false /\ newShape st' = None
      /\ (5 <= Rabs (fst (110, 60) - fst (10, 10)) -> 5 <= Rabs (snd (110, 60) - snd (10, 10)) ->
          shapes st' = [] ++
            [Shape.mk "r2" rectangle (Rmin (fst (10, 10)) (fst (110, 60)))
               (Rmin (snd (10, 10)) (snd (110, 60))) "#000000" 2 solid
               (Some (Rabs (fst (110, 60) - fst (10, 10))))
               (Some (Rabs (snd (110, 60) - snd (10, 10)))) None
               (Some "#88ccff"%string) None None])
      /\ (Rabs (fst (110, 60) - fst (10, 10)) < 5 \/ Rabs (snd (110, 60) - snd (10, 10)) < 5 ->
          shapes st' = [])).
Proof.
  split; [reflexivity|].
  exact (gesture_rectangle (drafting_state sample_rect) "r2" (10, 10) [Some (50, 50)]
           (110, 60) eq_refl).
Defined.

(** ** Clearing, saving and exporting *)

Definition removeItem (ls : Store) (k : string) : Store :=
  fun k' => if String.eqb k' k then None else ls k'.

(** [clearDrawing] (src/unnamed/part_000, lines 329-332):
    [setShapes([]); localStorage.removeItem('drawing')]. *)
Definition clearDrawing (st : State) (ls : Store) : State * Store :=
  (set_shapes st [], removeItem ls "drawing"%string).

(** Clearing empties the shape list and removes the saved entry, so a
    later Load starts from the empty list; no other store entry changes. *)
Theorem clear_then_load (st : State) (ls : Store) :
  shapes (fst (clearDrawing st ls)) = []
  /\ loadDrawing (snd (clearDrawing st ls)) = Ok (JArr [])
  /\ (forall k, k <> "drawing"%string -> snd (clearDrawing st ls) k = ls k).
Proof.
  split; [reflexivity|]. split.
  - unfold loadDrawing, clearDrawing, removeItem. cbn [snd]. rewrite String.eqb_refl. reflexivity.
  - intros k Hk. cbn [snd clearDrawing]. unfold removeItem.
    destruct (String.eqb_spec k "drawing"); [contradiction|reflexivity].
Qed.

(** Each save is a full snapshot that replaces the previous one: after
    saving two states, Load yields the second state's shapes; no other
    store entry changes. *)
Theorem save_overwrites (st1 st2 : State) (ls : Store) :
  loadDrawing (saveDrawing st2 (saveDrawing st1 ls)) = Ok (JArr (map shape_to_js (shapes st2)))
  /\ (forall k, k <> "drawing"%string -> saveDrawing st2 (saveDrawing st1 ls) k = ls k).
Proof.
  split.
  - unfold loadDrawing. unfold saveDrawing at 1. unfold setItem. rewrite String.eqb_refl.
    rewrite stringify_arr. cbv beta iota.
    rewrite <- stringify_arr, json_parse_stringify. reflexivity.
  - intros k Hk. unfold saveDrawing, setItem.
    destruct (String.eqb_spec k "drawing"); [contradiction|reflexivity].
Qed.




(** ** Composing selection and style application *)

Lemma find_map_same {A} (f : A -> bool) (g : A -> A) (l : list A) :
  (forall a, f (g a) = f a) ->
  find f (map g l) = option_map g (find f l).
Proof.
  intros Hfg. induction l as [|a l IH]; [reflexivity|]. simpl.
  rewrite Hfg. destruct (f a); [reflexivity|exact IH].
Qed.

Lemma merge_twice s a : Shape.merge (Shape.merge s a) a = Shape.merge s a.
Proof. destruct s, a as [[] [] [] [] [] [] [] [] [] [] [] [] []]; reflexivity. Qed.

(** Applying the pending style twice is the same as applying it once. *)
Lemma set_shapes_twice st a b : set_shapes (set_shapes st a) b = set_shapes st b.
Proof. destruct st; reflexivity. Qed.

Lemma updateShape_twice sel upd l :
  Shape.a_id upd = None ->
  updateShape sel upd (updateShape sel upd l) = updateShape sel upd l.
Proof.
  intros Hid. unfold updateShape. rewrite map_map. apply map_ext. intros s.
  destruct (String.eqb (Shape.id s) sel) eqn:E.
  - replace (Shape.id (Shape.merge s upd)) with (Shape.id s)
      by (destruct s, upd; cbn in Hid; subst; reflexivity).
    rewrite E. apply merge_twice.
  - rewrite E. reflexivity.
Qed.

Theorem applyStyle_idempotent (st : State) :
  applyStyleToSelected (applyStyleToSelected st) = applyStyleToSelected st.
Proof.
  unfold applyStyleToSelected at 2.
  destruct (selectedId st) as [sel|] eqn:Hsel; [|reflexivity].
  destruct (negb (truthy_id (Some sel))) eqn:Ht.
  { unfold applyStyleToSelected. rewrite Hsel. cbv beta iota. rewrite Ht. reflexivity. }
  set (fillUpd := match find _ (shapes st) with
                  | Some s => if ShapeType_eqb (Shape.type s) line then None
                              else Some (fillColor st)
                  | None => None end).
  set (upd := Shape.mkAttrs None None None None (Some (strokeColor st))
                (Some (strokeWidth st)) (Some (strokeStyle st)) None None None
                fillUpd None None).
  set (L := updateShape sel upd (shapes st)).
  unfold applyStyleToSelected.
  cbn [selectedId shapes fillColor strokeColor strokeWidth strokeStyle set_shapes].
  rewrite Hsel. cbv beta iota. rewrite Ht. rewrite set_shapes_twice. f_equal.
  assert (forall s, (fun s => String.eqb (Shape.id s) sel)
            ((fun s => if String.eqb (Shape.id s) sel then Shape.merge s upd else s) s)
          = String.eqb (Shape.id s) sel) as Hf.
  { intros s. cbv beta. destruct (String.eqb (Shape.id s) sel) eqn:E; [|exact E].
    replace (Shape.id (Shape.merge s upd)) with (Shape.id s) by (destruct s; reflexivity).
    exact E. }
  assert (Hfind : find (fun s => String.eqb (Shape.id s) sel) L
                  = option_map (fun s => Shape.merge s upd)
                      (find (fun s => String.eqb (Shape.id s) sel) (shapes st))).
  { unfold L, updateShape. rewrite (find_map_same _ _ _ Hf).
    destruct (find _ (shapes st)) as [s1|] eqn:E1; [|reflexivity].
    apply find_some in E1 as [_ E1]. cbn [option_map]. rewrite E1. reflexivity. }
  rewrite Hfind.
  destruct (find (fun s => String.eqb (Shape.id s) sel) (shapes st)) as [s0|] eqn:Ef;
    cbn [option_map].
  - replace (Shape.type (Shape.merge s0 upd)) with (Shape.type s0) by (destruct s0; reflexivity).
    change (updateShape sel upd L = L). apply updateShape_twice; reflexivity.
  - change (updateShape sel upd L = L). apply updateShape_twice; reflexivity.
Qed.

(** Clicking a shape and then pressing Apply Style without touching the
    side panel changes no shape: selection loads the shape's own style into
    the panel, and applying it writes back the same values. *)
Theorem select_then_apply_noop (st : State) (n : nat) (s : Shape.t)
    (Hnd : NoDup (map Shape.id (shapes st)))
    (Hn : nth_error (shapes st) n = Some s) :
  shapes (applyStyleToSelected (selectShape st n)) = shapes st.
Proof.
  pose proof (selectShape_shapes st n) as Hs.
  unfold applyStyleToSelected.
  assert (Hsel : selectedId (selectShape st n) = Some (Shape.id s))
    by (unfold selectShape; rewrite Hn; reflexivity).
  rewrite Hsel. cbv beta iota.
  destruct (negb (truthy_id (Some (Shape.id s)))); [exact Hs|].
  cbn [shapes set_shapes]. rewrite Hs.
  assert (Hin : In s (shapes st)) by (eapply nth_error_In; exact Hn).
  assert (Hfind : find (fun t => String.eqb (Shape.id t) (Shape.id s)) (shapes st) = Some s).
  { destruct (find _ (shapes st)) as [s0|] eqn:Ef.
    - apply find_some in Ef as [Hin0 Hid]. apply String.eqb_eq in Hid.
      f_equal. apply (NoDup_map_same Shape.id (shapes st)); assumption.
    - pose proof (find_none _ _ Ef s Hin) as Hf. cbv beta in Hf.
      rewrite String.eqb_refl in Hf. discriminate. }
  rewrite Hfind.
  unfold updateShape. rewrite <- (map_id (shapes st)) at 2.
  apply map_ext_in. intros t Ht.
  destruct (String.eqb_spec (Shape.id t) (Shape.id s)) as [E|E]; [|reflexivity].
  assert (t = s) as -> by (apply (NoDup_map_same Shape.id (shapes st)); assumption).
  unfold selectShape. rewrite Hn.
  destruct s as [i [] x y c w ss wd ht r f u v]; reflexivity.
Qed.

Lemma select_then_apply_noop_witness :
  NoDup (map Shape.id (shapes idle_state))
  /\ nth_error (shapes idle_state) 0 = Some sample_rect
  /\ shapes (applyStyleToSelected (selectShape idle_state 0)) = shapes idle_state.
Proof.
  assert (Hnd : NoDup (map Shape.id (shapes idle_state))).
  { cbv. repeat constructor; cbv; intuition discriminate. }
  split; [exact Hnd|]. split; [reflexivity|].
  apply (select_then_apply_noop idle_state 0 sample_rect Hnd). reflexivity.
Defined.

(** ** The Transformer's [boundBoxFunc] (src/unnamed/part_000, lines
    704-709): a resize that makes a side shorter than 5 is refused. *)
Record Box := mkBox {
  bx : R; by_ : R; bwidth : R; bheight : R; brotation : R
}.

Definition boundBoxFunc (oldBox newBox : Box) : Box :=
  if Rltb (bwidth newBox) 5 || Rltb (bheight newBox) 5 then oldBox else newBox.

(** Over any sequence of resize proposals, starting from a box whose sides
    are at least 5, the box the Transformer keeps has sides of at least 5,
    and it is the starting box or one of the proposals. *)
Theorem boundBox_keeps_min (b0 : Box) (props : list Box)
    (Hw : 5 <= bwidth b0) (Hh : 5 <= bheight b0) :
  let b := fold_left boundBoxFunc props b0 in
  5 <= bwidth b /\ 5 <= bheight b /\ (b = b0 \/ In b props).
Proof.
  cbn zeta. revert b0 Hw Hh. induction props as [|p props IH]; intros b0 Hw Hh.
  - cbn. auto.
  - cbn [fold_left].
    assert (Hb1 : 5 <= bwidth (boundBoxFunc b0 p) /\ 5 <= bheight (boundBoxFunc b0 p)
                  /\ (boundBoxFunc b0 p = b0 \/ boundBoxFunc b0 p = p)).
    { unfold boundBoxFunc.
      destruct (Rltb (bwidth p) 5) eqn:E1; [cbn [orb]; auto|].
      destruct (Rltb (bheight p) 5) eqn:E2; cbn [orb]; [auto|].
      apply Rltb_false in E1. apply Rltb_false in E2. auto. }
    destruct Hb1 as (Hw1 & Hh1 & Hb1).
    destruct (IH _ Hw1 Hh1) as (H1 & H2 & H3).
    split; [exact H1|]. split; [exact H2|].
    destruct H3 as [H3|H3]; [|right; right; exact H3].
    rewrite H3. destruct Hb1 as [Hb1|Hb1]; [left; exact Hb1|right; left; symmetry; exact Hb1].
Qed.

Lemma boundBox_keeps_min_witness :
  5 <= bwidth (mkBox 0 0 100 50 0) /\ 5 <= bheight (mkBox 0 0 100 50 0)
  /\ (let b := fold_left boundBoxFunc [mkBox 0 0 3 50 0; mkBox 0 0 40 20 0] (mkBox 0 0 100 50 0) in
      5 <= bwidth b /\ 5 <= bheight b /\ (b = mkBox 0 0 100 50 0 \/ In b [mkBox 0 0 3 50 0; mkBox 0 0 40 20 0])).
Proof.
  assert (Hw : 5 <= bwidth (mkBox 0 0 100 50 0)) by (cbn; lra).
  assert (Hh : 5 <= bheight (mkBox 0 0 100 50 0)) by (cbn; lra).
  split; [exact Hw|]. split; [exact Hh|].
  exact (boundBox_keeps_min (mkBox 0 0 100 50 0) _ Hw Hh).
Defined.

(** ** Sessions of events on [App]

    The state changes the component makes in response to the user: the
    Stage's mouse handlers, a click or a drag on the [n]-th rendered shape,
    the Apply button and the [onChange] handlers of the side panel
    (lines 219-252).  Save and Download do not change the state. *)
Inductive Event :=
| MouseDown (onStage : bool) (point : option (R * R)) (uuid : string)
| MouseMove (point : option (R * R))
| MouseUp
| ShapeClick (n : nat)
| ShapeDragEnd (n : nat) (pos : R * R)
| ApplyStyle
| SetTool (k : ShapeType)
| SetStrokeColor (c : string)
| SetFillColor (c : option string)
| SetStrokeWidth (w : R)
| SetStrokeStyle (k : StrokeStyle).

Definition step (st : State) (e : Event) : State :=
  match e with
  | MouseDown onStage point uuid => handleMouseDown st onStage point uuid
  | MouseMove point => handleMouseMove st point
  | MouseUp => handleMouseUp st
  | ShapeClick n => selectShape st n
  | ShapeDragEnd n pos => onDragEnd st n pos
  | ApplyStyle => applyStyleToSelected st
  | SetTool k =>
      mkState (shapes st) k (selectedId st) (strokeColor st) (fillColor st)
        (strokeWidth st) (strokeStyle st) (isDrawing st) (newShape st)
  | SetStrokeColor c =>
      mkState (shapes st) (tool st) (selectedId st) c (fillColor st)
        (strokeWidth st) (strokeStyle st) (isDrawing st) (newShape st)
  | SetFillColor c =>
      mkState (shapes st) (tool st) (selectedId st) (strokeColor st) c
        (strokeWidth st) (strokeStyle st) (isDrawing st) (newShape st)
  | SetStrokeWidth w =>
      mkState (shapes st) (tool st) (selectedId st) (strokeColor st) (fillColor st)
        w (strokeStyle st) (isDrawing st) (newShape st)
  | SetStrokeStyle k =>
      mkState (shapes st) (tool st) (selectedId st) (strokeColor st) (fillColor st)
        (strokeWidth st) k (isDrawing st) (newShape st)
  end.

(** The values [uuidv4()] returns during a session, one per mouse-down. *)
Fixpoint uuids (es : list Event) : list string :=
  match es with
  | [] => []
  | MouseDown _ _ u :: es => u :: uuids es
  | _ :: es => uuids es
  end.

(** A shape as a completed gesture leaves it: a rectangle with both sides
    at least 5, a circle with radius at least 5, a line of length at
    least 5. *)
Definition committed_ok (s : Shape.t) : Prop :=
  match Shape.type s with
  | rectangle => exists w h, Shape.width s = Some w /\ Shape.height s = Some h
                   /\ 5 <= w /\ 5 <= h
  | circle => exists r, Shape.radius s = Some r /\ 5 <= r
  | line => exists a b, Shape.x2 s = Some a /\ Shape.y2 s = Some b
              /\ 5 <= sqrt ((a - Shape.x s) ^ 2 + (b - Shape.y s) ^ 2)
  end.

Definition draft_ids (st : State) : list string :=
  match newShape st with Some d => [Shape.id d] | None => [] end.

Definition session_inv (st : State) (es : list Event) : Prop :=
  Forall committed_ok (shapes st)
  /\ (forall d, newShape st = Some d -> wf_draft d)
  /\ NoDup (map Shape.id (shapes st) ++ draft_ids st ++ uuids es).

Lemma ids_updateShape i a l :
  Shape.a_id a = None -> map Shape.id (updateShape i a l) = map Shape.id l.
Proof.
  intros Ha. unfold updateShape. rewrite map_map. apply map_ext. intros s.
  destruct (String.eqb (Shape.id s) i); [|reflexivity].
  destruct s, a; cbn in *; subst; reflexivity.
Qed.

Lemma Forall_updateShape (P : Shape.t -> Prop) i a l :
  Forall P l -> (forall s, In s l -> Shape.id s = i -> P (Shape.merge s a)) ->
  Forall P (updateShape i a l).
Proof.
  intros Hl Hm. unfold updateShape. apply Forall_map. rewrite Forall_forall in *.
  intros s Hs. destruct (String.eqb_spec (Shape.id s) i); auto.
Qed.

Lemma committed_style s c w k f :
  committed_ok (Shape.merge s (Shape.mkAttrs None None None None c w k
                                 None None None f None None))
  <-> committed_ok s.
Proof. destruct s as [i [] x y st sw ss wd ht r fl u v]; reflexivity. Qed.

Lemma committed_drag s pos : committed_ok s -> committed_ok (Shape.merge s (drag_attrs s pos)).
Proof.
  destruct pos as [px py].
  destruct s as [i [] x y st sw ss wd ht r fl u v]; unfold committed_ok, drag_attrs;
    cbn; [tauto|tauto|].
  intros (a & b & -> & -> & H). exists (a + px), (b + py). split; [reflexivity|].
  split; [reflexivity|].
  replace (a + px - (x + px)) with (a - x) by ring.
  replace (b + py - (y + py)) with (b - y) by ring. exact H.
Qed.

Lemma commit_ok d : wf_draft d -> too_small d = false -> committed_ok (commit_shape d).
Proof.
  intros Hw Ht. apply too_small_clears in Ht; [|exact Hw].
  unfold clears_threshold in Ht. destruct (Shape.type d) eqn:Ek.
  - destruct Ht as (w & h & Ew & Eh & Hw5 & Hh5).
    rewrite (commit_shape_rectangle d w h Ek Ew Eh). unfold committed_ok. cbn.
    exists (Rabs w), (Rabs h). auto.
  - unfold commit_shape. rewrite Ek. unfold committed_ok. rewrite Ek. exact Ht.
  - unfold commit_shape. rewrite Ek. unfold committed_ok. rewrite Ek. exact Ht.
Qed.

Lemma commit_id d : Shape.id (commit_shape d) = Shape.id d.
Proof.
  unfold commit_shape. destruct (Shape.type d); [|reflexivity|reflexivity].
  destruct (normalize_axis (Shape.x d) (Shape.width d)).
  destruct (normalize_axis (Shape.y d) (Shape.height d)). reflexivity.
Qed.

Lemma move_draft_id d px py : Shape.id (move_draft d px py) = Shape.id d.
Proof. destruct d as [i [] x y st sw ss w h r f u v]; reflexivity. Qed.

Lemma move_draft_wf d px py : wf_draft (move_draft d px py).
Proof. destruct d as [i [] x y st sw ss w h r f u v]; cbn; repeat split; discriminate. Qed.

Lemma NoDup_drop_middle (A B C : list string) :
  NoDup (A ++ B ++ C) -> NoDup (A ++ C).
Proof.
  induction B as [|b B IH]; [exact (fun H => H)|].
  intros H. apply IH. apply (NoDup_remove_1 A (B ++ C) b). exact H.
Qed.

(** Events that leave the shape list and the draft as they are keep the
    invariant. *)
Lemma session_inv_frame st st' e es :
  shapes st' = shapes st -> newShape st' = newShape st ->
  uuids (e :: es) = uuids es ->
  session_inv st (e :: es) -> session_inv st' es.
Proof.
  intros Hs Hn Hu (H1 & H2 & H3). unfold session_inv, draft_ids in *.
  rewrite Hs, Hn. rewrite Hu in H3. auto.
Qed.

Lemma session_inv_step st e es :
  session_inv st (e :: es) -> session_inv (step st e) es.
Proof.
  intros Hinv. pose proof Hinv as (Hok & Hwf & Hnd).
  assert (Hnds : NoDup (map Shape.id (shapes st)))
    by exact (NoDup_app_remove_r _ _ Hnd).
  destruct e as [onStage point u|point| |n|n pos| |k|c|c|w|k]; cbn [step].
  - (* MouseDown *)
    cbn [uuids] in Hnd.
    unfold handleMouseDown.
    destruct onStage; cbn [negb];
      [|split; [exact Hok|]; split; [exact Hwf|];
        rewrite app_assoc in *; exact (NoDup_remove_1 _ _ _ Hnd)].
    destruct point as [[px py]|];
      [|split; [exact Hok|]; split; [exact Hwf|];
        rewrite app_assoc in *; exact (NoDup_remove_1 _ _ _ Hnd)].
    unfold session_inv, draft_ids. cbn [shapes newShape].
    split; [exact Hok|]. split.
    + intros d Hd. injection Hd as <-. destruct (tool st); cbn; repeat split; discriminate.
    + assert (Hid : Shape.id (match tool st with
                | rectangle => Shape.mk u rectangle px py (strokeColor st) (strokeWidth st)
                    (strokeStyle st) (Some 0) (Some 0) None (fillColor st) None None
                | circle => Shape.mk u circle px py (strokeColor st) (strokeWidth st)
                    (strokeStyle st) None None (Some 0) (fillColor st) None None
                | line => Shape.mk u line px py (strokeColor st) (strokeWidth st)
                    (strokeStyle st) None None None None (Some px) (Some py)
                end) = u) by (destruct (tool st); reflexivity).
      rewrite Hid. cbn [app].
      exact (NoDup_drop_middle _ (draft_ids st) (u :: uuids es) Hnd).
  - (* MouseMove *)
    unfold handleMouseMove.
    destruct (negb (isDrawing st)); [exact Hinv|].
    destruct (newShape st) as [d|] eqn:En; [|exact Hinv].
    destruct point as [[px py]|]; [|exact Hinv].
    unfold session_inv, draft_ids in *. cbn [set_draft shapes newShape].
    rewrite En in Hnd. split; [exact Hok|]. split.
    + intros d' Hd'. injection Hd' as <-. apply move_draft_wf.
    + rewrite move_draft_id. exact Hnd.
  - (* MouseUp *)
    unfold handleMouseUp.
    destruct (negb (isDrawing st)); [exact Hinv|].
    destruct (newShape st) as [d|] eqn:En; [|exact Hinv].
    unfold session_inv, draft_ids in *. rewrite En in Hnd. cbn [uuids] in Hnd.
    destruct (too_small d) eqn:Ets; cbn [set_draft set_shapes shapes newShape].
    + split; [exact Hok|]. split; [discriminate|].
      exact (NoDup_drop_middle _ [Shape.id d] _ Hnd).
    + split; [|split; [discriminate|]].
      * apply Forall_app. split; [exact Hok|]. constructor; [|constructor].
        apply commit_ok; [apply Hwf; reflexivity|exact Ets].
      * rewrite map_app. cbn [map]. rewrite commit_id, <- app_assoc. exact Hnd.
  - (* ShapeClick *)
    apply (session_inv_frame st _ (ShapeClick n)); [apply selectShape_shapes| |reflexivity|exact Hinv].
    unfold selectShape. destruct (nth_error (shapes st) n); reflexivity.
  - (* ShapeDragEnd *)
    unfold onDragEnd. destruct (nth_error (shapes st) n) as [s|] eqn:Es; [|exact Hinv].
    assert (Hida : Shape.a_id (drag_attrs s pos) = None)
      by (destruct pos; unfold drag_attrs; destruct (ShapeType_eqb _ _); reflexivity).
    unfold session_inv, draft_ids in *. cbn [set_shapes shapes newShape].
    rewrite ids_updateShape by exact Hida.
    split; [|split; [exact Hwf|exact Hnd]].
    apply Forall_updateShape; [exact Hok|].
    intros t Ht Hid.
    assert (Hin : In s (shapes st)) by (eapply nth_error_In; exact Es).
    assert (t = s) as -> by (apply (NoDup_map_same Shape.id (shapes st)); assumption).
    apply committed_drag. rewrite Forall_forall in Hok. auto.
  - (* ApplyStyle *)
    unfold applyStyleToSelected.
    destruct (selectedId st) as [sel|]; [|exact Hinv].
    destruct (negb (truthy_id (Some sel))); [exact Hinv|].
    unfold session_inv, draft_ids in *. cbn [set_shapes shapes newShape].
    rewrite ids_updateShape by reflexivity.
    split; [|split; [exact Hwf|exact Hnd]].
    apply Forall_updateShape; [exact Hok|].
    intros t Ht _. apply committed_style. rewrite Forall_forall in Hok. auto.
  - eapply session_inv_frame; [| | |exact Hinv]; reflexivity.
  - eapply session_inv_frame; [| | |exact Hinv]; reflexivity.
  - eapply session_inv_frame; [| | |exact Hinv]; reflexivity.
  - eapply session_inv_frame; [| | |exact Hinv]; reflexivity.
  - eapply session_inv_frame; [| | |exact Hinv]; reflexivity.
Qed.

Lemma session_inv_run st es : session_inv st es -> session_inv (fold_left step es st) [].
Proof.
  revert st. induction es as [|e es IH]; intros st H; [exact H|].
  cbn [fold_left]. apply IH. apply session_inv_step. exact H.
Qed.

(** Starting from a list of valid shapes with distinct ids and no drawing
    in progress, and with [uuidv4()] returning values distinct from each
    other and from those ids, every sequence of user events leaves a list
    in which each shape clears the 5-unit threshold (rectangles with
    non-negative sides of at least 5), the ids are distinct, and a draft in
    progress has its size fields set and an id not yet in the list. *)
Theorem session_keeps_shapes_valid (st0 : State) (es : list Event)
    (Hok : Forall committed_ok (shapes st0))
    (Hidle : newShape st0 = None)
    (Hfresh : NoDup (map Shape.id (shapes st0) ++ uuids es)) :
  let st := fold_left step es st0 in
  Forall committed_ok (shapes st)
  /\ NoDup (map Shape.id (shapes st))
  /\ (forall d, newShape st = Some d ->
        wf_draft d /\ ~ In (Shape.id d) (map Shape.id (shapes st))).
Proof.
  cbn zeta.
  assert (H0 : session_inv st0 es).
  { unfold session_inv, draft_ids. rewrite Hidle. split; [exact Hok|].
    split; [discriminate|exact Hfresh]. }
  destruct (session_inv_run st0 es H0) as (H1 & H2 & H3).
  unfold draft_ids in H3. cbn [uuids] in H3. rewrite app_nil_r in H3.
  split; [exact H1|]. split; [exact (NoDup_app_remove_r _ _ H3)|].
  intros d Hd. split; [apply H2; exact Hd|].
  rewrite Hd in H3. intros Hin.
  apply (NoDup_remove_2 _ [] _ H3). rewrite app_nil_r. exact Hin.
Qed.

Definition blank_state : State :=
  mkState [] rectangle None "#000000" (Some "#88ccff"%string) 2 solid false None.

(** Draw a rectangle, a too-short line, a circle; select, drag and restyle. *)
Definition sample_session : list Event :=
  [MouseDown true (Some (10, 10)) "a"; MouseMove (Some (110, 60)); MouseUp;
   SetTool line; MouseDown true (Some (0, 0)) "b"; MouseMove (Some (2, 2)); MouseUp;
   SetTool circle; MouseDown true (Some (200, 200)) "c"; MouseMove (Some (230, 240));
   MouseUp; ShapeClick 0; ShapeDragEnd 0 (30, 30); SetStrokeWidth 4; ApplyStyle;
   MouseDown true (Some (300, 300)) "d"]%string.

Lemma session_keeps_shapes_valid_witness :
  Forall committed_ok (shapes blank_state) /\ newShape blank_state = None
  /\ NoDup (map Shape.id (shapes blank_state) ++ uuids sample_session)
  /\ (let st := fold_left step sample_session blank_state in
      Forall committed_ok (shapes st)
      /\ NoDup (map Shape.id (shapes st))
      /\ (forall d, newShape st = Some d ->
            wf_draft d /\ ~ In (Shape.id d) (map Shape.id (shapes st)))).
Proof.
  assert (Hok : Forall committed_ok (shapes blank_state)) by constructor.
  assert (Hidle : newShape blank_state = None) by reflexivity.
  assert (Hfresh : NoDup (map Shape.id (shapes blank_state) ++ uuids sample_session)).
  { cbn. repeat constructor; cbn; intuition discriminate. }
  split; [exact Hok|]. split; [exact Hidle|]. split; [exact Hfresh|].
  exact (session_keeps_shapes_valid blank_state sample_session Hok Hidle Hfresh).
Defined.

(** ** Save loses no information

    Reading property [k] of a parsed object whose keys are distinct: the
    value of the member named [k]. *)
Fixpoint get_field (k : string) (ms : list (string * jsval)) : option jsval :=
  match ms with
  | [] => None
  | (k', v) :: ms => if String.eqb k k' then Some v else get_field k ms
  end.

Definition js_members (v : jsval) : list (string * jsval) :=
  match v with JObj ms => ms | _ => [] end.

Lemma shape_to_js_fields s :
  let ms := js_members (shape_to_js s) in
  get_field "id" ms = Some (JStr (Shape.id s))
  /\ get_field "type" ms = Some (JStr (ShapeType_name (Shape.type s)))
  /\ get_field "x" ms = Some (JNum (Shape.x s))
  /\ get_field "y" ms = Some (JNum (Shape.y s))
  /\ get_field "stroke" ms = Some (JStr (Shape.stroke s))
  /\ get_field "strokeWidth" ms = Some (JNum (Shape.strokeWidth s))
  /\ get_field "strokeStyle" ms = Some (JStr (StrokeStyle_name (Shape.strokeStyle s)))
  /\ get_field "width" ms = option_map JNum (Shape.width s)
  /\ get_field "height" ms = option_map JNum (Shape.height s)
  /\ get_field "radius" ms = option_map JNum (Shape.radius s)
  /\ get_field "fill" ms = option_map JStr (Shape.fill s)
  /\ get_field "x2" ms = option_map JNum (Shape.x2 s)
  /\ get_field "y2" ms = option_map JNum (Shape.y2 s).
Proof.
  destruct s as [i k x y c w ss wd ht r f u v].
  destruct wd, ht, r, f, u, v; repeat split; reflexivity.
Qed.

Lemma option_map_inj {A B} (f : A -> B) (o1 o2 : option A) :
  (forall a b, f a = f b -> a = b) -> option_map f o1 = option_map f o2 -> o1 = o2.
Proof.
  intros Hf E. destruct o1, o2; cbn in E; try discriminate; [|reflexivity].
  injection E as E. f_equal. auto.
Qed.

Lemma shape_to_js_inj s1 s2 : shape_to_js s1 = shape_to_js s2 -> s1 = s2.
Proof.
  intros E.
  pose proof (shape_to_js_fields s1) as F1. pose proof (shape_to_js_fields s2) as F2.
  cbn zeta in F1, F2. rewrite E in F1.
  destruct F1 as (A1 & A2 & A3 & A4 & A5 & A6 & A7 & A8 & A9 & A10 & A11 & A12 & A13).
  destruct F2 as (B1 & B2 & B3 & B4 & B5 & B6 & B7 & B8 & B9 & B10 & B11 & B12 & B13).
  assert (JNum_inj : forall a b, JNum a = JNum b -> a = b) by congruence.
  assert (JStr_inj : forall a b, JStr a = JStr b -> a = b) by congruence.
  destruct s1 as [i k x y c w ss wd ht r f u v], s2 as [i' k' x' y' c' w' ss' wd' ht' r' f' u' v'];
    cbn [Shape.id Shape.type Shape.x Shape.y Shape.stroke Shape.strokeWidth Shape.strokeStyle
         Shape.width Shape.height Shape.radius Shape.fill Shape.x2 Shape.y2] in *.
  assert (i = i') as -> by congruence.
  assert (k = k') as -> by (destruct k, k'; cbn in *; congruence).
  assert (x = x') as -> by congruence.
  assert (y = y') as -> by congruence.
  assert (c = c') as -> by congruence.
  assert (w = w') as -> by congruence.
  assert (ss = ss') as -> by (destruct ss, ss'; cbn in *; congruence).
  rewrite A8 in B8. rewrite A9 in B9. rewrite A10 in B10. rewrite A11 in B11.
  rewrite A12 in B12. rewrite A13 in B13.
  apply option_map_inj in B8, B9, B10, B12, B13; auto. apply option_map_inj in B11; auto.
  subst. reflexivity.
Qed.

Lemma map_inj_list {A B} (f : A -> B) :
  (forall a b, f a = f b -> a = b) ->
  forall l1 l2, map f l1 = map f l2 -> l1 = l2.
Proof.
  intros Hf l1. induction l1 as [|a l IH]; intros l2 E.
  - destruct l2; [reflexivity|discriminate].
  - destruct l2 as [|b l2]; [discriminate|]. cbn [map] in E. injection E as Eab El.
    f_equal; auto.
Qed.

(** Two states whose Save writes the same text hold the same shape list:
    the saved JSON keeps every field of every shape, in order. *)
Theorem save_lossless (st1 st2 : State) (ls1 ls2 : Store)
    (E : saveDrawing st1 ls1 "drawing"%string = saveDrawing st2 ls2 "drawing"%string) :
  shapes st1 = shapes st2.
Proof.
  unfold saveDrawing, setItem in E. rewrite String.eqb_refl in E.
  assert (E' : json_parse (stringify (JArr (map shape_to_js (shapes st1))))
              = json_parse (stringify (JArr (map shape_to_js (shapes st2)))))
    by congruence.
  rewrite !json_parse_stringify in E'. clear E. injection E' as E.
  exact (map_inj_list shape_to_js shape_to_js_inj _ _ E).
Qed.

Lemma save_lossless_witness :
  saveDrawing idle_state empty_store "drawing"%string
    = saveDrawing idle_state empty_store "drawing"%string
  /\ shapes idle_state = shapes idle_state.
Proof.
  split; [reflexivity|]. apply (save_lossless idle_state idle_state empty_store empty_store).
  reflexivity.
Defined.

(** ** Successive drags *)

Lemma drag_twice s p q :
  let s1 := Shape.merge s (drag_attrs s p) in
  Shape.merge s1 (drag_attrs s1 q)
  = Shape.merge s (drag_attrs s (match Shape.type s with
                                 | line => (fst p + fst q, snd p + snd q)
                                 | _ => q end)).
Proof.
  destruct p as [px py], q as [qx qy].
  destruct s as [i [] x y c w ss wd ht r f u v];
    unfold drag_attrs, Shape.merge, Shape.ov; cbn; [reflexivity|reflexivity|].
  f_equal; try ring.
  - destruct u; cbn; [f_equal; ring|reflexivity].
  - destruct v; cbn; [f_equal; ring|reflexivity].
Qed.

(** Dragging the same shape twice is one drag: for a line the two offsets
    add up, for a rectangle or a circle the second drop position wins. *)
Theorem dragEnd_compose (st : State) (n : nat) (s : Shape.t) (p q : R * R)
    (Hnd : NoDup (map Shape.id (shapes st)))
    (Hn : nth_error (shapes st) n = Some s) :
  shapes (onDragEnd (onDragEnd st n p) n q)
  = shapes (onDragEnd st n (match Shape.type s with
                            | line => (fst p + fst q, snd p + snd q)
                            | _ => q end)).
Proof.
  assert (Hin : In s (shapes st)) by (eapply nth_error_In; exact Hn).
  assert (Hid1 : Shape.id (Shape.merge s (drag_attrs s p)) = Shape.id s)
    by (destruct p as [p1 p2]; destruct s as [i [] x y c w ss wd ht rr f u v]; reflexivity).
  assert (Hn1 : nth_error (shapes (onDragEnd st n p)) n = Some (Shape.merge s (drag_attrs s p))).
  { unfold onDragEnd. rewrite Hn. cbn [shapes set_shapes]. unfold updateShape.
    rewrite nth_error_map, Hn. cbn [option_map]. rewrite String.eqb_refl. reflexivity. }
  unfold onDragEnd at 1. rewrite Hn1. cbn [shapes set_shapes].
  unfold onDragEnd. rewrite Hn. cbn [shapes set_shapes].
  rewrite Hid1. unfold updateShape. rewrite map_map. apply map_ext_in.
  intros t Ht. destruct (String.eqb_spec (Shape.id t) (Shape.id s)) as [E|E].
  - assert (t = s) as -> by (apply (NoDup_map_same Shape.id (shapes st)); assumption).
    rewrite Hid1, String.eqb_refl. apply drag_twice.
  - apply String.eqb_neq in E. rewrite E. reflexivity.
Qed.

Lemma dragEnd_compose_witness :
  NoDup (map Shape.id (shapes idle_state))
  /\ nth_error (shapes idle_state) 1 = Some sample_line
  /\ shapes (onDragEnd (onDragEnd idle_state 1 (7, -2)) 1 (3, 5))
     = shapes (onDragEnd idle_state 1 (match Shape.type sample_line with
                                       | line => (fst (7, -2) + fst (3, 5), snd (7, -2) + snd (3, 5))
                                       | _ => (3, 5) end)).
Proof.
  assert (Hnd : NoDup (map Shape.id (shapes idle_state))).
  { cbv. repeat constructor; cbv; intuition discriminate. }
  split; [exact Hnd|]. split; [reflexivity|].
  apply (dragEnd_compose idle_state 1 sample_line (7, -2) (3, 5) Hnd). reflexivity.
Defined.
